(** * Ramsey with virtual Z rotations (calibrations/96_Ramsey_arb_flux.py)

    A shallow embedding of the calibration script.  The script is one linear
    Python module: it reads its parameters, selects qubits, builds a QUA
    program, simulates or executes it, fetches the result streams into a
    labelled dataset, fits the Ramsey oscillation twice and saves the node.

    - Python integers are [Z]; Python and numpy floats are IEEE binary64,
      that is Rocq's primitive [float].
    - Python dictionaries ([machine.qubits], [node.results], [fit_results])
      and the label-indexed xarray objects are [gmap string _].
    - The script's module-level names that are bound on some paths only
      ([qmm], [job], [date_time]) live in an explicit record of globals; a
      read of an unbound one raises [NameError].
    - Every call into a library (QM, QuAM, Qualibrate, xarray fits,
      matplotlib) is a call site; the outside world decides whether the call
      returns or raises, and each call is logged in a trace. *)

From Stdlib Require Import ZArith List String Floats Lia.
From stdpp Require Import base gmap strings list.

Set Warnings "-inexact-float".
Open Scope Z_scope.
Open Scope string_scope.
Open Scope list_scope.

(** ** Exceptions and outcomes *)

Inductive Exception :=
| KeyError (key : string)          (* a dictionary or label lookup missed *)
| NameError (name : string)        (* a module-level name is not bound *)
| AttributeError (attr : string)   (* attribute access on a wrong object *)
| ValueError (what : string)       (* int() of a NaN *)
| OverflowError (what : string)    (* int() of an infinity *)
| LibraryError (what : string).    (* raised inside an external library *)

(** What running a piece of the script gives: a value, an exception that
    leaves the script, or [Unfinished] when the polling loop was still
    running after the allotted number of rounds. *)
Inductive Outcome (A : Type) :=
| Done (a : A)
| Raised (e : Exception)
| Unfinished.
Arguments Done {A} a.
Arguments Raised {A} e.
Arguments Unfinished {A}.

(** ** Node parameters (class Parameters, lines 42-55) *)

Inductive FluxPoint := joint | independent.

(** [qubits: Optional[List[str]]]; line 72 also compares the value with a
    string, so a string is kept as a possible run-time value. *)
Inductive QubitsParam :=
| QubitsNone
| QubitsStr (s : string)
| QubitsList (l : list string).

Module Parameters.
Record t := {
  qubits : QubitsParam;
  num_averages : Z;
  frequency_detuning_in_mhz : float;
  min_wait_time_in_ns : Z;
  max_wait_time_in_ns : Z;
  flux_point_joint_or_independent : FluxPoint;
  use_state_discrimination : bool;
  simulate : bool;
  simulation_duration_ns : Z;
  timeout : Z;
  load_data_id : option Z;
  multiplexed : bool
}.

(** The defaults of the class. *)
Definition default : t := {|
  qubits := QubitsList ["qD1"];
  num_averages := 1500;
  frequency_detuning_in_mhz := 5.0;
  min_wait_time_in_ns := 16;
  max_wait_time_in_ns := 5000;
  flux_point_joint_or_independent := joint;
  use_state_discrimination := true;
  simulate := false;
  simulation_duration_ns := 2500;
  timeout := 100;
  load_data_id := None;
  multiplexed := true
|}.
End Parameters.

(** ** The QuAM machine *)

Module Qubit.
(** Modelled from the spec: the QuAM qubit component is not part of this
    file.  The script reads [name] and [grid_location]; [f_01] and
    [T2ramsey] stand for the two calibrated qubit parameters the spec and
    the module docstring speak of (qubit frequency and dephasing
    time T2-star). *)
Record t := {
  name : string;
  grid_location : string;
  f_01 : float;
  T2ramsey : float
}.
End Qubit.

Module Quam.
(** Modelled from the spec: the machine read from the state file, with the
    two members the script uses: the [qubits] dictionary and the
    [active_qubits] list. *)
Record t := {
  qubits : gmap string Qubit.t;
  active_qubits : list Qubit.t
}.
End Quam.

(** ** numpy and xarray values *)

(** [np.arange(start, stop, step)] on integers, for a positive step: the
    values start, start+step, ... below stop; there are
    ceil((stop-start)/step) of them.  numpy holds them as 64-bit integers;
    on [Z] the arithmetic below is the same as long as start and stop fit
    in 64 bits, since every value lies between them. *)
Fixpoint arange_from (start : Z) (count : nat) (step : Z) : list Z :=
  match count with
  | O => []
  | S c => start :: arange_from (start + step) c step
  end.

Definition np_arange (start stop step : Z) : list Z :=
  arange_from start (Z.to_nat ((stop - start + step - 1) / step)) step.

(** Lines 82-89: the idle times in clock cycles.  [//] is floor division and
    [.astype(int)] leaves an integer array as it is. *)
Definition idle_times (p : Parameters.t) : list Z :=
  map (fun x => x / 4)
      (np_arange (Parameters.min_wait_time_in_ns p)
                 (Parameters.max_wait_time_in_ns p) 4).

(** Python's [int(x)] on a float: truncation towards zero. *)
Definition int_of_float (x : float) : Outcome Z :=
  match Prim2SF x with
  | S754_zero _ => Done 0
  | S754_infinity _ => Raised (OverflowError "cannot convert float infinity to integer")
  | S754_nan => Raised (ValueError "cannot convert float NaN to integer")
  | S754_finite s m e =>
      let a := Z.shiftl (Z.pos m) e in
      Done (if s then - a else a)
  end.

(** Line 93. *)
Definition detuning (p : Parameters.t) : Outcome Z :=
  int_of_float (1e6 * Parameters.frequency_detuning_in_mhz p)%float.

(** A one-dimensional [DataArray] over the coordinate "qubit": one float per
    qubit label. *)
Abbreviation DataArray := (gmap string float).

(** The dataset of a run: the coordinates "qubit" and "time" and the data
    variable "state" (one row of averaged values per qubit). *)
Record Dataset := {
  ds_qubit : list string;
  ds_time : list Z;
  ds_state : list (list float)
}.

(** The array a fit function returns: for every label of the coordinate
    "fit_vals" a one-dimensional array over "qubit". *)
Abbreviation Fit := (gmap string (gmap string float)).

(** [fit.sel(fit_vals=label)]. *)
Definition sel (fit : Fit) (label : string) : Outcome DataArray :=
  match fit !! label with
  | Some a => Done a
  | None => Raised (KeyError label)
  end.

(** [a.where(a > 0, drop=True)] on a one-dimensional array: the entries
    that do not satisfy the condition are dropped together with their
    labels.  A NaN is not greater than zero. *)
Definition where_positive (a : DataArray) : DataArray :=
  filter (fun kv => PrimFloat.ltb 0 kv.2 = true) a.

(** Element-wise arithmetic; two arrays are aligned on their labels. *)
Definition scale (c : float) (a : DataArray) : DataArray :=
  (fun x => (c * x)%float) <$> a.
Definition reciprocal (a : DataArray) : DataArray :=
  (fun x => (1 / x)%float) <$> a.
Definition sqrt_array (a : DataArray) : DataArray := PrimFloat.sqrt <$> a.
Definition mul_array (a b : DataArray) : DataArray :=
  intersection_with (fun x y => Some (x * y)%float) a b.
Definition div_array (a b : DataArray) : DataArray :=
  intersection_with (fun x y => Some (x / y)%float) a b.

(** [a.loc[label].values]. *)
Definition loc (a : DataArray) (label : string) : Outcome float :=
  match a !! label with
  | Some x => Done x
  | None => Raised (KeyError label)
  end.

(** ** The QUA program (lines 96-142) *)

(** What the [with program() as ramsey] block builds: a fixed pulse program
    that depends on the selected qubits, the number of averages, the idle
    times, the detuning, the flux point and the [multiplexed] flag. *)
Record Program := {
  prog_qubits : list Qubit.t;
  prog_n_avg : Z;
  prog_idle_times : list Z;
  prog_detuning : Z;
  prog_flux_point : FluxPoint;
  prog_multiplexed : bool
}.

(** The device that runs the program.  [declared v i] is what the [i]-th
    integer variable of the family [v] holds when it is declared (lines
    103-105 give no value); [readout i n k] is the state that
    [readout_state] measures for the qubit of index [i] in averaging
    iteration [n] at the [k]-th idle time, after the pulses of lines
    117-127 were played. *)
Record Device := {
  declared : string -> nat -> Z;
  readout : nat -> nat -> nat -> Z
}.

(** The QUA variables and streams of the program. *)
Record QuaState := {
  init_state : list Z;
  state : list Z;
  final_state : list Z;
  state_st : list (list Z);
  n_st : list Z
}.

(** Lines 97-106: the declarations. *)
Definition declarations (dev : Device) (num_qubits : nat) : QuaState := {|
  init_state := map (declared dev "init_state") (seq 0 num_qubits);
  state := map (declared dev "state") (seq 0 num_qubits);
  final_state := map (declared dev "final_state") (seq 0 num_qubits);
  state_st := replicate num_qubits [];
  n_st := []
|}.

(** Lines 129-132: one shot for the qubit of index [i]. *)
Definition shot (dev : Device) (i n k : nat) (s : QuaState) : QuaState :=
  (* readout_state(qubit, state[i]) *)
  let state1 := <[i := readout dev i n k]> (state s) in
  (* assign(final_state[i], init_state[i] ^ state[i]) *)
  let final1 := <[i := Z.lxor (init_state s !!! i) (state1 !!! i)]> (final_state s) in
  (* save(final_state[i], state_st[i]) *)
  let st1 := <[i := (state_st s !!! i) ++ [final1 !!! i]]> (state_st s) in
  (* assign(init_state[i], state[i]) *)
  let init1 := <[i := state1 !!! i]> (init_state s) in
  {| init_state := init1; state := state1; final_state := final1;
     state_st := st1; n_st := n_st s |}.

(** Line 115: [for_each_(t, idle_times)]. *)
Definition idle_loop (dev : Device) (prog : Program) (i n : nat) (s : QuaState) : QuaState :=
  fold_left (fun s k => shot dev i n k s) (seq 0 (length (prog_idle_times prog))) s.

(** Lines 113-114: [for_(n, 0, n < n_avg, n + 1)] with [save(n, n_st)]. *)
Definition average_iteration (dev : Device) (prog : Program) (i n : nat) (s : QuaState) : QuaState :=
  idle_loop dev prog i n
    {| init_state := init_state s; state := state s; final_state := final_state s;
       state_st := state_st s; n_st := n_st s ++ [Z.of_nat n] |}.

Definition average_loop (dev : Device) (prog : Program) (i : nat) (s : QuaState) : QuaState :=
  fold_left (fun s n => average_iteration dev prog i n s)
            (seq 0 (Z.to_nat (prog_n_avg prog))) s.

(** Line 108: the Python loop over [enumerate(qubits)], and so the whole
    program as the device runs it. *)
Definition ramsey (dev : Device) (prog : Program) : QuaState :=
  fold_left (fun s i => average_loop dev prog i s)
            (seq 0 (length (prog_qubits prog)))
            (declarations dev (length (prog_qubits prog))).

(** The readouts of the qubit of index [i] in the order they are taken. *)
Definition readouts (dev : Device) (prog : Program) (i : nat) : list Z :=
  flat_map (fun n => map (fun k => readout dev i n k)
                         (seq 0 (length (prog_idle_times prog))))
           (seq 0 (Z.to_nat (prog_n_avg prog))).

(** The readout that precedes shot [j] of a qubit: the declared content of
    [init_state] before the first shot, the readout of shot [j-1] after. *)
Definition previous_readout (d : Z) (rs : list Z) (j : nat) : Z :=
  match j with
  | O => d
  | S j' => rs !!! j'
  end.

(** ** The node, its results and the outside world *)

Inductive DecayModel := exponential | gaussian.

(** [oscillation_decay_exp] / [oscillation_decay_gaussian] evaluated on
    [ds.time] with the five selected fit values: the fitted curve. *)
Record Curve := {
  curve_model : DecayModel;
  curve_time : list Z;
  curve_a : DataArray;
  curve_f : DataArray;
  curve_phi : DataArray;
  curve_offset : DataArray;
  curve_decay : DataArray
}.

Inductive Figure :=
| SamplesFigure
    (* plt.gcf() after the simulated samples were plotted, line 160 *)
| GridFigure (ds : Dataset) (fitted : Curve)
             (fit_results : gmap string (gmap string float))
             (date_time : string) (multiplexed : bool).
    (* grid.fig, lines 248-272 and 329-353 *)

(** The values stored in [node.results]. *)
Inductive Value :=
| VDataset (ds : Dataset)
| VFitResults (r : gmap string (gmap string float))
| VFigure (fig : Figure)
| VParameters (p : Parameters.t).

(** The [QualibrationNode] as far as the script touches it. *)
Record Node := {
  parameters : Parameters.t;
  results : gmap string Value;
  machine : option Quam.t;
  outcomes : gmap string string
}.

Module Site.
(** The calls into libraries, by their place in the source. *)
Inductive t :=
| QualibrationNode                          (* 57 *)
| get_node_id                               (* 58 *)
| Quam_load                                 (* 64 *)
| generate_config                           (* 66 *)
| connect                                   (* 69 *)
| program                                   (* 96-142 *)
| SimulationConfig                          (* 149 *)
| simulate                                  (* 150 *)
| get_simulated_samples                     (* 152 *)
| plot_samples                              (* 153-158 *)
| datetime_now                              (* 165 *)
| qm_session                                (* 166, entering the with block *)
| qm_session_exit                           (* 173, leaving the with block *)
| execute                                   (* 167 *)
| fetching_tool                             (* 168 *)
| is_processing (k : nat)                   (* 169, the k-th query *)
| fetch_all (k : nat)                       (* 171 *)
| progress_counter (k : nat)                (* 173 *)
| fetch_results_as_xarray                   (* 180-185 *)
| load_from_id                              (* 187 *)
| fit_oscillation_decay (m : DecayModel)    (* 195, 276 *)
| oscillation_decay (m : DecayModel)        (* 197-204, 278-285 *)
| print (m : DecayModel)                    (* 242-244, 323-325 *)
| plot_grid (m : DecayModel)                (* 248-268, 329-349 *)
| show (m : DecayModel)                     (* 269-271, 350-352 *)
| model_dump                                (* 358 *)
| node_save.                                (* 162, 360 *)
End Site.

(** What an observer of the script's library calls sees. *)
Inductive Event :=
| Returned (s : Site.t)
| Threw (s : Site.t) (e : Exception)
| IsProcessing (k : nat) (b : bool)   (* results.is_processing() answered b *)
| Saved (n : Node).                   (* node.save() persisted this node *)

(** Everything the script does not decide itself. *)
Record World := {
  raises : Site.t -> option Exception;
      (* the library calls that raise, and what they raise *)
  state_file : Quam.t;
      (* the machine Quam.load() reads *)
  now : string;
      (* datetime.now(...).strftime(...) *)
  processing : nat -> bool;
      (* the answer of the k-th results.is_processing() *)
  result_handles : list (list float);
      (* the averaged streams state1, state2, ... of the job *)
  stored_node : Z -> Node;
      (* the node load_from_id finds *)
  fit_oscillation_decay : DecayModel -> Dataset -> Fit
      (* fit_oscillation_decay_exp / _gaussian on ds.state along time *)
}.

(** The module-level names of the script that change or may be unbound. *)
Record Globals := {
  node : Node;
  qmm : option unit;
  job : option Program;
  date_time : option string;
  trace : list Event
}.

Definition set_node (f : Node -> Node) (g : Globals) : Globals :=
  {| node := f (node g); qmm := qmm g; job := job g;
     date_time := date_time g; trace := trace g |}.
Definition set_qmm (g : Globals) : Globals :=
  {| node := node g; qmm := Some tt; job := job g;
     date_time := date_time g; trace := trace g |}.
Definition set_job (prog : Program) (g : Globals) : Globals :=
  {| node := node g; qmm := qmm g; job := Some prog;
     date_time := date_time g; trace := trace g |}.
Definition set_date_time (s : string) (g : Globals) : Globals :=
  {| node := node g; qmm := qmm g; job := job g;
     date_time := Some s; trace := trace g |}.
Definition add_trace (evs : list Event) (g : Globals) : Globals :=
  {| node := node g; qmm := qmm g; job := job g;
     date_time := date_time g; trace := trace g ++ evs |}.
Definition log (ev : Event) (g : Globals) : Globals := add_trace [ev] g.

Definition set_results (r : gmap string Value) (n : Node) : Node :=
  {| parameters := parameters n; results := r;
     machine := machine n; outcomes := outcomes n |}.
Definition set_machine (m : Quam.t) (n : Node) : Node :=
  {| parameters := parameters n; results := results n;
     machine := Some m; outcomes := outcomes n |}.
Definition set_outcomes (o : gmap string string) (n : Node) : Node :=
  {| parameters := parameters n; results := results n;
     machine := machine n; outcomes := o |}.

(** ** The script monad: globals, exceptions, no handler *)

(** A piece of the script takes the globals and gives the globals back with
    its outcome.  There is no operation that catches an exception, as the
    script has no [try]. *)

Definition Script (A : Type) : Type := Globals -> Globals * Outcome A.

Definition ret {A} (a : A) : Script A := fun g => (g, Done a).

Definition bind {A B} (m : Script A) (f : A -> Script B) : Script B :=
  fun g =>
    match m g with
    | (g1, Done a) => f a g1
    | (g1, Raised e) => (g1, Raised e)
    | (g1, Unfinished) => (g1, Unfinished)
    end.

Notation "x <- m ;; k" := (bind m (fun x => k))
  (at level 100, m at next level, right associativity).
Notation "m ;; k" := (bind m (fun _ => k))
  (at level 100, right associativity).

Definition lift {A} (o : Outcome A) : Script A := fun g => (g, o).
Definition modify (f : Globals -> Globals) : Script unit := fun g => (f g, Done tt).
Definition get {A} (f : Globals -> A) : Script A := fun g => (g, Done (f g)).

(** Reading a module-level name that may be unbound. *)
Definition read {A} (name : string) (f : Globals -> option A) : Script A :=
  fun g =>
    match f g with
    | Some a => (g, Done a)
    | None => (g, Raised (NameError name))
    end.

(** Sequencing in [Outcome] alone, for the code that touches no global. *)
Definition and_then {A B} (o : Outcome A) (f : A -> Outcome B) : Outcome B :=
  match o with
  | Done a => f a
  | Raised e => Raised e
  | Unfinished => Unfinished
  end.

Notation "x <-? o ;; k" := (and_then o (fun x => k))
  (at level 100, o at next level, right associativity).

(** ** Qubit selection (lines 72-76) *)

(** [machine.qubits[q]]. *)
Definition lookup_qubit (m : Quam.t) (q : string) : Outcome Qubit.t :=
  match Quam.qubits m !! q with
  | Some x => Done x
  | None => Raised (KeyError q)
  end.

(** [[machine.qubits[q] for q in names]]: the lookups are made in order and
    the first miss raises. *)
Fixpoint lookup_qubits (m : Quam.t) (names : list string) : Outcome (list Qubit.t) :=
  match names with
  | [] => Done []
  | q :: rest =>
      x <-? lookup_qubit m q ;;
      xs <-? lookup_qubits m rest ;;
      Done (x :: xs)
  end.

(** Iterating over a Python string gives its characters as strings. *)
Fixpoint characters (s : string) : list string :=
  match s with
  | EmptyString => []
  | String c rest => String c EmptyString :: characters rest
  end.

Definition select_qubits (m : Quam.t) (q : QubitsParam) : Outcome (list Qubit.t) :=
  match q with
  | QubitsNone => Done (Quam.active_qubits m)
  | QubitsStr EmptyString => Done (Quam.active_qubits m)
  | QubitsStr s => lookup_qubits m (characters s)
  | QubitsList l => lookup_qubits m l
  end.

(** ** Dataset creation (lines 180-185) *)

(** Modelled from the spec: [fetch_results_as_xarray] is not part of this
    file; it returns the labelled array indexed by qubit and by the given
    measurement axis, filled with the fetched streams. *)
Definition fetch_results_as_xarray (handles : list (list float))
    (qs : list Qubit.t) (time : list Z) : Dataset :=
  {| ds_qubit := map Qubit.name qs; ds_time := time; ds_state := handles |}.

(** [ds.assign_coords({"time": (["time"], values)})]. *)
Definition assign_coords_time (ds : Dataset) (values : list Z) : Dataset :=
  {| ds_qubit := ds_qubit ds; ds_time := values; ds_state := ds_state ds |}.

(** Lines 180-183: the dataset of a run on hardware, its "time" coordinate
    replaced by the absolute idle times. *)
Definition hardware_dataset (handles : list (list float)) (qs : list Qubit.t)
    (p : Parameters.t) : Dataset :=
  let ds := fetch_results_as_xarray handles qs (idle_times p) in
  assign_coords_time ds (map (Z.mul 4) (idle_times p)).

(** ** Data analysis (lines 206-240 and 287-321) *)

(** The record of one qubit in [fit_results]. *)
Definition fit_record (freq_offset decay decay_error : float) : gmap string float :=
  <["freq_offset" := (1e9 * freq_offset)%float]>
    (<["decay" := decay]> (<["decay_error" := decay_error]> ∅)).

(** The dictionary comprehension of lines 233-240: for every selected qubit
    the three label lookups, in order; a miss raises. *)
Fixpoint collect_fit_results (freq_offset decay decay_error : DataArray)
    (qs : list Qubit.t) (acc : gmap string (gmap string float))
    : Outcome (gmap string (gmap string float)) :=
  match qs with
  | [] => Done acc
  | q :: rest =>
      fo <-? loc freq_offset (Qubit.name q) ;;
      d <-? loc decay (Qubit.name q) ;;
      de <-? loc decay_error (Qubit.name q) ;;
      collect_fit_results freq_offset decay decay_error rest
        (<[Qubit.name q := fit_record fo d de]> acc)
  end.

Definition fit_results_of (fit : Fit) (qs : list Qubit.t)
    : Outcome (gmap string (gmap string float)) :=
  frequency <-? sel fit "f" ;;                                   (* 206 *)
  _ <-? sel fit "decay" ;;                                       (* 209 *)
  let frequency := where_positive frequency in                   (* 212 *)
  decay <-? sel fit "decay" ;;                                   (* 214 *)
  decay_res <-? sel fit "decay_decay" ;;                         (* 217 *)
  d <-? sel fit "decay" ;;
  let tau := reciprocal d in                                     (* 220 *)
  let tau_error :=
    mul_array tau (div_array (sqrt_array decay_res) decay) in    (* 223 *)
  (* 226: within_detuning is computed from frequency and never used *)
  let freq_offset := frequency in                                (* 228 *)
  let decay := scale 1e-9 tau in                                 (* 229 *)
  let decay_error := scale 1e-9 tau_error in                     (* 230 *)
  collect_fit_results freq_offset decay decay_error qs ∅.        (* 233 *)

(** Lines 197-204 and 278-285: the arguments of the model function, that
    is the curve it draws.  The five selections are made in order. *)
Definition curve_of (m : DecayModel) (ds : Dataset) (fit : Fit) : Outcome Curve :=
  a <-? sel fit "a" ;;
  f <-? sel fit "f" ;;
  phi <-? sel fit "phi" ;;
  offset <-? sel fit "offset" ;;
  decay <-? sel fit "decay" ;;
  Done {| curve_model := m; curve_time := ds_time ds; curve_a := a;
          curve_f := f; curve_phi := phi; curve_offset := offset;
          curve_decay := decay |}.

(** The key under which the figure of each analysis is stored. *)
Definition figure_key (m : DecayModel) : string :=
  match m with
  | exponential => "figure"
  | gaussian => "figure_gaussian"
  end.

(** ** The script *)

Section Script.
Variable w : World.

(** A call into a library: it returns or it raises, and it is logged. *)
Definition call (s : Site.t) : Script unit :=
  fun g =>
    match raises w s with
    | None => (log (Returned s) g, Done tt)
    | Some e => (log (Threw s e) g, Raised e)
    end.

(** [results.is_processing()] for the [k]-th time. *)
Definition is_processing (k : nat) : Script bool :=
  fun g =>
    match raises w (Site.is_processing k) with
    | None => (log (IsProcessing k (processing w k)) g, Done (processing w k))
    | Some e => (log (Threw (Site.is_processing k) e) g, Raised e)
    end.

(** [node.save()]. *)
Definition node_save : Script unit :=
  fun g =>
    match raises w Site.node_save with
    | None => (log (Saved (node g)) g, Done tt)
    | Some e => (log (Threw Site.node_save e) g, Raised e)
    end.

(** Lines 169-173: the live-polling loop, for at most [fuel] queries. *)
Fixpoint poll (fuel k : nat) : Script unit :=
  match fuel with
  | O => lift Unfinished
  | S fuel' =>
      busy <- is_processing k ;;
      if busy then
        call (Site.fetch_all k) ;;
        call (Site.progress_counter k) ;;
        poll fuel' (S k)
      else ret tt
  end.

(** The cells Data_analysis and Plotting: lines 193-272 with the
    exponential model, lines 274-353 with the Gaussian one.  The two blocks
    differ in the fit function, the model function and the key of the
    figure only. *)
Definition Data_analysis (m : DecayModel) (qs : list Qubit.t) (ds : Dataset) : Script unit :=
  call (Site.fit_oscillation_decay m) ;;
  let fit := fit_oscillation_decay w m ds in
  fitted <- lift (curve_of m ds fit) ;;
  call (Site.oscillation_decay m) ;;
  fit_results <- lift (fit_results_of fit qs) ;;
  modify (set_node (fun n =>
    set_results (<["fit_results" := VFitResults fit_results]> (results n)) n)) ;;
  call (Site.print m) ;;
  call (Site.plot_grid m) ;;
  date_time <- read "date_time" date_time ;;
  multiplexed <- get (fun g => Parameters.multiplexed (parameters (node g))) ;;
  call (Site.show m) ;;
  modify (set_node (fun n =>
    set_results
      (<[figure_key m :=
           VFigure (GridFigure ds fitted fit_results date_time multiplexed)]>
         (results n)) n)).

(** Lines 147-162: the simulation. *)
Definition simulate_branch (mach : Quam.t) (prog : Program) : Script unit :=
  call Site.SimulationConfig ;;
  _ <- read "qmm" qmm ;;
  call Site.simulate ;;
  modify (set_job prog) ;;
  call Site.get_simulated_samples ;;
  call Site.plot_samples ;;
  modify (set_node (set_results (<["figure" := VFigure SamplesFigure]> ∅))) ;;
  modify (set_node (set_machine mach)) ;;
  node_save.

(** Line 166, [with qm_session(...) as qm: body]: the context manager of
    the library is entered, the body runs, and the manager is left whatever
    the outcome of the body (it closes the session).  Leaving does not
    swallow an exception of the body; an exception raised on leaving takes
    its place.  A body that is still running has not left the block. *)
Definition with_qm_session {A} (body : Script A) : Script A :=
  call Site.qm_session ;;
  fun g =>
    match body g with
    | (g1, Unfinished) => (g1, Unfinished)
    | (g1, o) =>
        match raises w Site.qm_session_exit with
        | None => (log (Returned Site.qm_session_exit) g1, o)
        | Some e => (log (Threw Site.qm_session_exit e) g1, Raised e)
        end
    end.

(** Lines 164-173: the execution on hardware. *)
Definition execute_branch (fuel : nat) (prog : Program) : Script unit :=
  call Site.datetime_now ;;
  modify (set_date_time (now w)) ;;
  _ <- read "qmm" qmm ;;
  with_qm_session
    (call Site.execute ;;
     modify (set_job prog) ;;
     call Site.fetching_tool ;;
     poll fuel 0).

(** Lines 178-190, the cell Data_fetching_and_dataset_creation. *)
Definition Data_fetching_and_dataset_creation (p : Parameters.t) (qs : list Qubit.t) : Script Value :=
  ds <- match Parameters.load_data_id p with
        | None =>
            _ <- read "job" job ;;
            call Site.fetch_results_as_xarray ;;
            ret (VDataset (hardware_dataset (result_handles w) qs p))
        | Some id =>
            call Site.load_from_id ;;
            modify (set_node (fun _ => stored_node w id)) ;;
            r <- get (fun g => results (node g)) ;;
            match r !! "ds" with
            | Some v => ret v
            | None => lift (Raised (KeyError "ds"))
            end
        end ;;
  modify (set_node (set_results (<["ds" := ds]> ∅))) ;;
  ret ds.

(** [ds.state], [ds.time]: the value must be a dataset. *)
Definition as_dataset (v : Value) : Outcome Dataset :=
  match v with
  | VDataset ds => Done ds
  | _ => Raised (AttributeError "state")
  end.

(** Lines 356-360, the cell Save_results. *)
Definition Save_results (mach : Quam.t) (qs : list Qubit.t) : Script unit :=
  modify (set_node (set_outcomes
    (list_to_map (map (fun q => (Qubit.name q, "successful")) (reverse qs))))) ;;
  call Site.model_dump ;;
  modify (set_node (fun n =>
    set_results (<["initial_parameters" := VParameters (parameters n)]> (results n)) n)) ;;
  modify (set_node (set_machine mach)) ;;
  node_save.

(** Lines 57-76, the cell Initialize_QuAM_and_QOP: the node, the machine,
    the connection and the selected qubits. *)
Definition Initialize_QuAM_and_QOP (p : Parameters.t) : Script (Quam.t * list Qubit.t) :=
  call Site.QualibrationNode ;;                                  (* 57 *)
  call Site.get_node_id ;;                                       (* 58 *)
  call Site.Quam_load ;;                                         (* 64 *)
  let mach := state_file w in
  call Site.generate_config ;;                                   (* 66 *)
  (match Parameters.load_data_id p with                          (* 68 *)
   | None => call Site.connect ;; modify set_qmm
   | Some _ => ret tt
   end) ;;
  qs <- lift (select_qubits mach (Parameters.qubits p)) ;;       (* 72-75 *)
  ret (mach, qs).

(** Lines 80-142, the cell QUA_program. *)
Definition QUA_program (p : Parameters.t) (qs : list Qubit.t) : Script Program :=
  let n_avg := Parameters.num_averages p in                      (* 80 *)
  let idle := idle_times p in                                    (* 82 *)
  det <- lift (detuning p) ;;                                    (* 93 *)
  let flux_point := Parameters.flux_point_joint_or_independent p in
  call Site.program ;;                                           (* 96 *)
  ret {| prog_qubits := qs; prog_n_avg := n_avg;
         prog_idle_times := idle; prog_detuning := det;
         prog_flux_point := flux_point;
         prog_multiplexed := Parameters.multiplexed p |}.

(** Lines 147-173, the cell Simulate_or_execute. *)
Definition Simulate_or_execute (p : Parameters.t) (fuel : nat)
    (mach : Quam.t) (prog : Program) : Script unit :=
  if Parameters.simulate p then simulate_branch mach prog        (* 147 *)
  else match Parameters.load_data_id p with                      (* 164 *)
       | None => execute_branch fuel prog
       | Some _ => ret tt
       end.

(** Lines 177-360: dataset creation, the two analyses and the save, all
    under [if not node.parameters.simulate]. *)
Definition fetch_and_analyse (p : Parameters.t) (mach : Quam.t)
    (qs : list Qubit.t) : Script unit :=
  if Parameters.simulate p then ret tt                           (* 177 *)
  else
    v <- Data_fetching_and_dataset_creation p qs ;;
    ds <- lift (as_dataset v) ;;
    Data_analysis exponential qs ds ;;
    Data_analysis gaussian qs ds ;;
    Save_results mach qs.

(** The module, top to bottom. *)
Definition script (p : Parameters.t) (fuel : nat) : Script unit :=
  mq <- Initialize_QuAM_and_QOP p ;;
  prog <- QUA_program p mq.2 ;;
  Simulate_or_execute p fuel mq.1 prog ;;
  fetch_and_analyse p mq.1 mq.2.

(** The globals when the module starts. *)
Definition start (p : Parameters.t) : Globals :=
  {| node := {| parameters := p; results := ∅; machine := None; outcomes := ∅ |};
     qmm := None; job := None; date_time := None; trace := [] |}.

Definition run (p : Parameters.t) (fuel : nat) : Globals * Outcome unit :=
  script p fuel (start p).
End Script.

(** ** Shapes of traces *)

(** One round of the polling loop that found the job still processing. *)
Definition poll_round (k : nat) : list Event :=
  [IsProcessing k true; Returned (Site.fetch_all k); Returned (Site.progress_counter k)].

(** The rounds [k], [k+1], ..., [k+j-1]. *)
Definition poll_rounds (k j : nat) : list Event :=
  flat_map poll_round (seq k j).

(** The events of one analysis block that ran to its end. *)
Definition analysis_events (m : DecayModel) : list Event :=
  [Returned (Site.fit_oscillation_decay m); Returned (Site.oscillation_decay m);
   Returned (Site.print m); Returned (Site.plot_grid m); Returned (Site.show m)].

(** The events of a run on hardware up to the start of the polling loop. *)
Definition execute_prelude : list Event :=
  [Returned Site.QualibrationNode; Returned Site.get_node_id;
   Returned Site.Quam_load; Returned Site.generate_config;
   Returned Site.connect; Returned Site.program;
   Returned Site.datetime_now; Returned Site.qm_session;
   Returned Site.execute; Returned Site.fetching_tool].

(** The node a completed run on hardware saves. *)
Definition final_results (p : Parameters.t) (ds : Dataset) (date_time : string)
    (c_exp c_gauss : Curve) (r_exp r_gauss : gmap string (gmap string float))
    : gmap string Value :=
  <["initial_parameters" := VParameters p]>
    (<["figure_gaussian" :=
         VFigure (GridFigure ds c_gauss r_gauss date_time (Parameters.multiplexed p))]>
       (<["fit_results" := VFitResults r_gauss]>
          (<["figure" :=
               VFigure (GridFigure ds c_exp r_exp date_time (Parameters.multiplexed p))]>
             (<["fit_results" := VFitResults r_exp]>
                (<["ds" := VDataset ds]> ∅))))).

Definition final_node (w : World) (p : Parameters.t) (qs : list Qubit.t)
    (c_exp c_gauss : Curve) (r_exp r_gauss : gmap string (gmap string float)) : Node :=
  {| parameters := p;
     results := final_results p (hardware_dataset (result_handles w) qs p)
                  (now w) c_exp c_gauss r_exp r_gauss;
     machine := Some (state_file w);
     outcomes := list_to_map (map (fun q => (Qubit.name q, "successful")) (reverse qs)) |}.

(** ** Observations on runs *)

(** The trace of a run on hardware that completed after [j] busy polls. *)
Definition completed_trace (j : nat) (n : Node) : list Event :=
  execute_prelude ++ poll_rounds 0 j ++
  [IsProcessing j false; Returned Site.qm_session_exit;
   Returned Site.fetch_results_as_xarray] ++
  analysis_events exponential ++ analysis_events gaussian ++
  [Returned Site.model_dump; Saved n].

(** The call site an event belongs to. *)
Definition site_of (ev : Event) : Site.t :=
  match ev with
  | Returned s => s
  | Threw s _ => s
  | IsProcessing k _ => Site.is_processing k
  | Saved _ => Site.node_save
  end.

(** All the events come from the sites [S] allows. *)
Definition within (S : Site.t -> bool) (tr : list Event) : Prop :=
  Forall (fun ev => S (site_of ev) = true) tr.

(** The exception of the last call that raised, if any did. *)
Fixpoint last_threw (tr : list Event) : option Exception :=
  match tr with
  | [] => None
  | ev :: rest =>
      match last_threw rest with
      | Some e => Some e
      | None =>
          match ev with
          | Threw _ e => Some e
          | _ => None
          end
      end
  end.

(** The exception of the last library call that raised is the outcome, and
    after a call has raised nothing happens any more but the leaving of the
    session block. *)
Definition propagated {A} (tr : list Event) (o : Outcome A) : Prop :=
  (forall e, last_threw tr = Some e -> o = Raised e) /\
  (forall i s e k ev,
     tr !! i = Some (Threw s e) -> (i < k)%nat -> tr !! k = Some ev ->
     site_of ev = Site.qm_session_exit).

(** [m] only extends the trace, with events from the sites of [S], and lets
    every library exception through. *)
Definition emits {A} (S : Site.t -> bool) (m : Script A) : Prop :=
  forall g g' o, m g = (g', o) ->
    exists tr, trace g' = trace g ++ tr /\ within S tr /\ propagated tr o.

(** [m] saves the node at most once, as its last step, and then ends
    normally with that node. *)
Definition saves {A} (m : Script A) : Prop :=
  forall g g' o, m g = (g', o) ->
    exists tr, trace g' = trace g ++ tr /\
      forall i n, tr !! i = Some (Saved n) ->
        (exists a, o = Done a) /\ length tr = S i /\ n = node g'.

(** Every site but [node.save()]. *)
Definition not_node_save (s : Site.t) : bool :=
  match s with
  | Site.node_save => false
  | _ => true
  end.

(** The sites of result fetching and analysis: everything the script does
    after the polling loop. *)
Definition after_polling (s : Site.t) : bool :=
  match s with
  | Site.fetch_results_as_xarray | Site.load_from_id
  | Site.fit_oscillation_decay _ | Site.oscillation_decay _
  | Site.print _ | Site.plot_grid _ | Site.show _
  | Site.model_dump | Site.node_save => true
  | _ => false
  end.

(** The sites a simulation may touch. *)
Definition simulation_site (s : Site.t) : bool :=
  match s with
  | Site.QualibrationNode | Site.get_node_id | Site.Quam_load
  | Site.generate_config | Site.connect | Site.program
  | Site.SimulationConfig | Site.simulate | Site.get_simulated_samples
  | Site.plot_samples | Site.node_save => true
  | _ => false
  end.

(** The sites of the first cell. *)
Definition initialise_site (s : Site.t) : bool :=
  match s with
  | Site.QualibrationNode | Site.get_node_id | Site.Quam_load
  | Site.generate_config | Site.connect => true
  | _ => false
  end.

(** The node a completed simulation saves. *)
Definition simulation_node (w : World) (p : Parameters.t) : Node :=
  {| parameters := p;
     results := <["figure" := VFigure SamplesFigure]> ∅;
     machine := Some (state_file w);
     outcomes := ∅ |}.

(** The trace of a completed simulation. *)
Definition simulation_trace (n : Node) : list Event :=
  [Returned Site.QualibrationNode; Returned Site.get_node_id;
   Returned Site.Quam_load; Returned Site.generate_config;
   Returned Site.connect; Returned Site.program;
   Returned Site.SimulationConfig; Returned Site.simulate;
   Returned Site.get_simulated_samples; Returned Site.plot_samples;
   Saved n].

(** Lines 57-173 as one step: everything up to the end of the polling
    loop. *)
Definition acquire (w : World) (p : Parameters.t) (fuel : nat)
    : Script (Quam.t * list Qubit.t) :=
  mq <- Initialize_QuAM_and_QOP w p ;;
  prog <- QUA_program w p mq.2 ;;
  Simulate_or_execute w p fuel mq.1 prog ;;
  ret mq.

(** ** A laboratory: one machine, a few worlds and parameter sets *)

Module Lab.
(** One qubit, as the state file describes it before the run. *)
Definition qD1 : Qubit.t :=
  {| Qubit.name := "qD1"; Qubit.grid_location := "0,0";
     Qubit.f_01 := 5e9; Qubit.T2ramsey := 1e-6 |}.

Definition quam : Quam.t :=
  {| Quam.qubits := <["qD1" := qD1]> ∅; Quam.active_qubits := [qD1] |}.

(** A fit table for the one qubit with the given frequency and decay. *)
Definition table (f decay : float) : Fit :=
  <["a" := <["qD1" := 0.5%float]> ∅]>
    (<["f" := <["qD1" := f]> ∅]>
       (<["phi" := <["qD1" := 0%float]> ∅]>
          (<["offset" := <["qD1" := 0.5%float]> ∅]>
             (<["decay" := <["qD1" := decay]> ∅]>
                (<["decay_decay" := <["qD1" := 0x1p-40%float]> ∅]> ∅))))).

(** The two fit functions disagree, as two different models do. *)
Definition fits (m : DecayModel) (ds : Dataset) : Fit :=
  match m with
  | exponential => table 0x1p-9 0x1p-13
  | gaussian => table 0x1p-8 0x1p-12
  end.

Definition empty_node : Node :=
  {| parameters := Parameters.default; results := ∅; machine := None; outcomes := ∅ |}.

(** A world in which every call returns and the job is busy for two polls. *)
Definition world : World :=
  {| raises := fun _ => None;
     state_file := quam;
     now := "2024-05-01 12:00:00";
     processing := fun k => (k <? 2)%nat;
     result_handles := [[0.9%float; 0.1%float; 0.8%float; 0.2%float]];
     stored_node := fun _ => empty_node;
     fit_oscillation_decay := fits |}.

(** The same world, but the session with the hardware times out. *)
Definition timeout_world : World :=
  {| raises := fun s => match s with
                        | Site.qm_session => Some (LibraryError "session timeout")
                        | _ => None
                        end;
     state_file := quam;
     now := now world;
     processing := processing world;
     result_handles := result_handles world;
     stored_node := stored_node world;
     fit_oscillation_decay := fits |}.

(** The same world, but the exponential fit finds a negative frequency. *)
Definition negative_world : World :=
  {| raises := fun _ => None;
     state_file := quam;
     now := now world;
     processing := processing world;
     result_handles := result_handles world;
     stored_node := stored_node world;
     fit_oscillation_decay := fun m ds =>
       match m with
       | exponential => table (-0x1p-9) 0x1p-13
       | gaussian => table 0x1p-8 0x1p-12
       end |}.

(** A short sweep on hardware: idle times 16, 20, 24, 28 ns. *)
Definition params : Parameters.t :=
  {| Parameters.qubits := QubitsList ["qD1"];
     Parameters.num_averages := 2;
     Parameters.frequency_detuning_in_mhz := 5.0;
     Parameters.min_wait_time_in_ns := 16;
     Parameters.max_wait_time_in_ns := 30;
     Parameters.flux_point_joint_or_independent := joint;
     Parameters.use_state_discrimination := true;
     Parameters.simulate := false;
     Parameters.simulation_duration_ns := 2500;
     Parameters.timeout := 100;
     Parameters.load_data_id := None;
     Parameters.multiplexed := true |}.

Definition with_simulate (p : Parameters.t) : Parameters.t :=
  {| Parameters.qubits := Parameters.qubits p;
     Parameters.num_averages := Parameters.num_averages p;
     Parameters.frequency_detuning_in_mhz := Parameters.frequency_detuning_in_mhz p;
     Parameters.min_wait_time_in_ns := Parameters.min_wait_time_in_ns p;
     Parameters.max_wait_time_in_ns := Parameters.max_wait_time_in_ns p;
     Parameters.flux_point_joint_or_independent :=
       Parameters.flux_point_joint_or_independent p;
     Parameters.use_state_discrimination := Parameters.use_state_discrimination p;
     Parameters.simulate := true;
     Parameters.simulation_duration_ns := Parameters.simulation_duration_ns p;
     Parameters.timeout := Parameters.timeout p;
     Parameters.load_data_id := Parameters.load_data_id p;
     Parameters.multiplexed := Parameters.multiplexed p |}.

Definition with_qubits (q : QubitsParam) (p : Parameters.t) : Parameters.t :=
  {| Parameters.qubits := q;
     Parameters.num_averages := Parameters.num_averages p;
     Parameters.frequency_detuning_in_mhz := Parameters.frequency_detuning_in_mhz p;
     Parameters.min_wait_time_in_ns := Parameters.min_wait_time_in_ns p;
     Parameters.max_wait_time_in_ns := Parameters.max_wait_time_in_ns p;
     Parameters.flux_point_joint_or_independent :=
       Parameters.flux_point_joint_or_independent p;
     Parameters.use_state_discrimination := Parameters.use_state_discrimination p;
     Parameters.simulate := Parameters.simulate p;
     Parameters.simulation_duration_ns := Parameters.simulation_duration_ns p;
     Parameters.timeout := Parameters.timeout p;
     Parameters.load_data_id := Parameters.load_data_id p;
     Parameters.multiplexed := Parameters.multiplexed p |}.

Definition with_load_data_id (id : Z) (p : Parameters.t) : Parameters.t :=
  {| Parameters.qubits := Parameters.qubits p;
     Parameters.num_averages := Parameters.num_averages p;
     Parameters.frequency_detuning_in_mhz := Parameters.frequency_detuning_in_mhz p;
     Parameters.min_wait_time_in_ns := Parameters.min_wait_time_in_ns p;
     Parameters.max_wait_time_in_ns := Parameters.max_wait_time_in_ns p;
     Parameters.flux_point_joint_or_independent :=
       Parameters.flux_point_joint_or_independent p;
     Parameters.use_state_discrimination := Parameters.use_state_discrimination p;
     Parameters.simulate := Parameters.simulate p;
     Parameters.simulation_duration_ns := Parameters.simulation_duration_ns p;
     Parameters.timeout := Parameters.timeout p;
     Parameters.load_data_id := Some id;
     Parameters.multiplexed := Parameters.multiplexed p |}.

(** The dataset of the run on hardware. *)
Definition dataset : Dataset :=
  hardware_dataset (result_handles world) [qD1] params.

(** The same world, with an earlier node in the store that holds that
    dataset. *)
Definition archive_world : World :=
  {| raises := fun _ => None;
     state_file := quam;
     now := now world;
     processing := processing world;
     result_handles := result_handles world;
     stored_node := fun _ =>
       {| parameters := params;
          results := <["ds" := VDataset dataset]> ∅;
          machine := None;
          outcomes := ∅ |};
     fit_oscillation_decay := fits |}.
End Lab.

(** Whether a trace shows a call to a site of [S]. *)
Definition touches (S : Site.t -> bool) (tr : list Event) : bool :=
  existsb (fun ev => S (site_of ev)) tr.

(** The sites that fetch the measured results, build the dataset and fit
    the oscillation. *)
Definition fetch_or_fit (s : Site.t) : bool :=
  match s with
  | Site.fetching_tool | Site.fetch_all _ | Site.fetch_results_as_xarray
  | Site.load_from_id | Site.fit_oscillation_decay _ => true
  | _ => false
  end.

(** [node.results["fit_results"][q][key]], when the node has it. *)
Definition saved_value (n : Node) (q key : string) : option float :=
  match results n !! "fit_results" with
  | Some (VFitResults r) =>
      match r !! q with
      | Some record => record !! key
      | None => None
      end
  | _ => None
  end.

(** The same entry of a freshly computed fit-result dictionary. *)
Definition fitted_value (o : Outcome (gmap string (gmap string float)))
    (q key : string) : option float :=
  match o with
  | Done r =>
      match r !! q with
      | Some record => record !! key
      | None => None
      end
  | _ => None
  end.

(** The parameter of a qubit of the machine saved with the node. *)
Definition saved_parameter (n : Node) (q : string) (f : Qubit.t -> float) : option float :=
  match machine n with
  | Some m =>
      match Quam.qubits m !! q with
      | Some x => Some (f x)
      | None => None
      end
  | None => None
  end.

(** The tail of the trace of a completed run on hardware, after the
    prelude and the busy rounds. *)
Definition completed_tail (j : nat) (n : Node) : list Event :=
  [IsProcessing j false; Returned Site.qm_session_exit;
   Returned Site.fetch_results_as_xarray] ++
  analysis_events exponential ++ analysis_events gaussian ++
  [Returned Site.model_dump; Saved n].

(** The three keys of the record of a qubit. *)
Definition record_keys : gset string := {["freq_offset"; "decay"; "decay_error"]}.

(** What a qubit's stream holds after the readouts [rs], when [init_state]
    held [d] before the first of them. *)
Fixpoint xor_stream (d : Z) (rs : list Z) : list Z :=
  match rs with
  | [] => []
  | r :: rest => Z.lxor d r :: xor_stream r rest
  end.

(** What [init_state] holds after the readouts [rs]. *)
Fixpoint last_readout (d : Z) (rs : list Z) : Z :=
  match rs with
  | [] => d
  | r :: rest => last_readout r rest
  end.

(** Every vector of the program has one entry per qubit. *)
Definition sized (nq : nat) (s : QuaState) : Prop :=
  length (init_state s) = nq /\ length (state s) = nq /\
  length (final_state s) = nq /\ length (state_st s) = nq.

(** The readouts of the averaging iterations [ns], in order. *)
Definition readouts_of (dev : Device) (prog : Program) (i : nat) (ns : list nat)
    : list Z :=
  flat_map (fun n => map (fun k => readout dev i n k)
                         (seq 0 (length (prog_idle_times prog)))) ns.

(** A device that declares its integers as zero and reads out a pattern. *)
Definition pattern_device : Device :=
  {| declared := fun _ _ => 0;
     readout := fun i n k => Z.of_nat ((i + n * k) mod 2) |}.

(** A program on two qubits, two averages and three idle times. *)
Definition small_program : Program :=
  {| prog_qubits := [Lab.qD1; Lab.qD1];
     prog_n_avg := 2;
     prog_idle_times := [4; 5; 6];
     prog_detuning := 5000000;
     prog_flux_point := joint;
     prog_multiplexed := true |}.

(** The globals of the laboratory run when the dataset cell starts. *)
Definition before_dataset : Globals :=
  set_job small_program (start Lab.params).

Definition is_program (s : Site.t) : bool :=
  match s with
  | Site.program => true
  | _ => false
  end.

(** A list that names a qubit the laboratory machine does not have. *)
Definition unknown_qubit : Parameters.t :=
  Lab.with_qubits (QubitsList ["qD1"; "qX"]) Lab.params.

(** ** Further observations *)

(** [fit.sel(fit_vals=label).loc[name].values], when both labels exist. *)
Definition fit_value (fit : Fit) (label name : string) : option float :=
  match fit !! label with
  | Some a => a !! name
  | None => None
  end.

(** The names of the selected qubits, as the keys of a dictionary built
    from them. *)
Definition names_of (qs : list Qubit.t) : gset string :=
  list_to_set (map Qubit.name qs).


(** Reading a stream of exclusive ors back: the running exclusive or,
    started from what [init_state] held before the first shot. *)
Fixpoint running_xor (d : Z) (xs : list Z) : list Z :=
  match xs with
  | [] => []
  | x :: rest => Z.lxor d x :: running_xor (Z.lxor d x) rest
  end.

(** A value that is one bit. *)
Definition is_bit (z : Z) : Prop := z = 0 \/ z = 1.

(** The sites that talk to the control hardware or to its simulator. *)
Definition hardware_site (s : Site.t) : bool :=
  match s with
  | Site.connect | Site.simulate | Site.get_simulated_samples
  | Site.qm_session | Site.qm_session_exit | Site.execute
  | Site.fetching_tool | Site.is_processing _ | Site.fetch_all _
  | Site.progress_counter _ | Site.fetch_results_as_xarray => true
  | _ => false
  end.

(** The events of the first two cells when data are loaded: no connection
    is opened. *)
Definition offline_prelude : list Event :=
  [Returned Site.QualibrationNode; Returned Site.get_node_id;
   Returned Site.Quam_load; Returned Site.generate_config;
   Returned Site.program].

(** The laboratory world with a job that never finishes. *)
Definition busy_world : World :=
  {| raises := fun _ => None;
     state_file := Lab.quam;
     now := now Lab.world;
     processing := fun _ => true;
     result_handles := result_handles Lab.world;
     stored_node := stored_node Lab.world;
     fit_oscillation_decay := Lab.fits |}.

(** The laboratory parameters with another detuning. *)
Definition with_detuning (f : float) (p : Parameters.t) : Parameters.t :=
  {| Parameters.qubits := Parameters.qubits p;
     Parameters.num_averages := Parameters.num_averages p;
     Parameters.frequency_detuning_in_mhz := f;
     Parameters.min_wait_time_in_ns := Parameters.min_wait_time_in_ns p;
     Parameters.max_wait_time_in_ns := Parameters.max_wait_time_in_ns p;
     Parameters.flux_point_joint_or_independent :=
       Parameters.flux_point_joint_or_independent p;
     Parameters.use_state_discrimination := Parameters.use_state_discrimination p;
     Parameters.simulate := Parameters.simulate p;
     Parameters.simulation_duration_ns := Parameters.simulation_duration_ns p;
     Parameters.timeout := Parameters.timeout p;
     Parameters.load_data_id := Parameters.load_data_id p;
     Parameters.multiplexed := Parameters.multiplexed p |}.

(** The laboratory parameters with another sweep of the idle time. *)
Definition with_wait_times (lo hi : Z) (p : Parameters.t) : Parameters.t :=
  {| Parameters.qubits := Parameters.qubits p;
     Parameters.num_averages := Parameters.num_averages p;
     Parameters.frequency_detuning_in_mhz := Parameters.frequency_detuning_in_mhz p;
     Parameters.min_wait_time_in_ns := lo;
     Parameters.max_wait_time_in_ns := hi;
     Parameters.flux_point_joint_or_independent :=
       Parameters.flux_point_joint_or_independent p;
     Parameters.use_state_discrimination := Parameters.use_state_discrimination p;
     Parameters.simulate := Parameters.simulate p;
     Parameters.simulation_duration_ns := Parameters.simulation_duration_ns p;
     Parameters.timeout := Parameters.timeout p;
     Parameters.load_data_id := Parameters.load_data_id p;
     Parameters.multiplexed := Parameters.multiplexed p |}.

(** A detuning that is no number. *)
Definition undefined_detuning : Parameters.t :=
  with_detuning PrimFloat.nan Lab.params.

(** The qubit of the laboratory named as a string, not as a list. *)
Definition string_of_a_qubit : Parameters.t :=
  Lab.with_qubits (QubitsStr "qD1") Lab.params.

(** Every site but the opening of the session. *)
Definition not_qm_session (s : Site.t) : bool :=
  match s with
  | Site.qm_session => false
  | _ => true
  end.

(** Every session that was opened was left later on. *)
Definition session_closed (tr : list Event) : Prop :=
  forall i, tr !! i = Some (Returned Site.qm_session) ->
    exists k ev, (i < k)%nat /\ tr !! k = Some ev /\
      site_of ev = Site.qm_session_exit.

(** [m] leaves every session it opens, unless it is still running. *)
Definition closes {A} (m : Script A) : Prop :=
  forall g g' o, m g = (g', o) -> o <> Unfinished ->
    exists tr, trace g' = trace g ++ tr /\ session_closed tr.

(** The laboratory world, but the job fails while it is polled. *)
Definition failing_job_world : World :=
  {| raises := fun s => match s with
                        | Site.fetch_all 1 => Some (LibraryError "job failed")
                        | _ => None
                        end;
     state_file := Lab.quam;
     now := now Lab.world;
     processing := processing Lab.world;
     result_handles := result_handles Lab.world;
     stored_node := stored_node Lab.world;
     fit_oscillation_decay := Lab.fits |}.

(** The labels of the coordinate "fit_vals" that an analysis block reads. *)
Definition fit_labels : list string :=
  ["a"; "f"; "phi"; "offset"; "decay"; "decay_decay"].

(** The globals of the laboratory run when the first analysis starts. *)
Definition before_analysis : Globals :=
  set_date_time (now Lab.world) before_dataset.

(** ** The monad, step by step *)

Lemma add_trace_add_trace (t1 t2 : list Event) (g : Globals) :
  add_trace t2 (add_trace t1 g) = add_trace (t1 ++ t2) g.
Proof. unfold add_trace; simpl. by rewrite app_assoc. Qed.

Lemma bind_done {A B} (m : Script A) (f : A -> Script B) g g' b :
  bind m f g = (g', Done b) ->
  exists a g1, m g = (g1, Done a) /\ f a g1 = (g', Done b).
Proof.
  unfold bind. destruct (m g) as [g1 [a|e|]]; intros H; try discriminate.
  exists a, g1. split; [reflexivity | exact H].
Qed.

Lemma bind_eq {A B} (m : Script A) (f : A -> Script B) g g1 a :
  m g = (g1, Done a) -> bind m f g = f a g1.
Proof. unfold bind. by intros ->. Qed.

Lemma and_then_done {A B} (o : Outcome A) (f : A -> Outcome B) b :
  and_then o f = Done b -> exists a, o = Done a /\ f a = Done b.
Proof. destruct o as [a|e|]; simpl; intros H; try discriminate. eauto. Qed.

Section Steps.
Variable w : World.

Lemma call_done s g g' u :
  call w s g = (g', Done u) -> raises w s = None /\ g' = log (Returned s) g.
Proof.
  unfold call. destruct (raises w s); intros H; [discriminate|].
  by injection H as <- _.
Qed.

Lemma call_eq s g :
  raises w s = None -> call w s g = (log (Returned s) g, Done tt).
Proof. unfold call. by intros ->. Qed.

Lemma is_processing_done k g g' b :
  is_processing w k g = (g', Done b) ->
  raises w (Site.is_processing k) = None /\ b = processing w k /\
  g' = log (IsProcessing k b) g.
Proof.
  unfold is_processing. destruct (raises w _); intros H; [discriminate|].
  by injection H as <- <-.
Qed.

Lemma node_save_done g g' u :
  node_save w g = (g', Done u) ->
  raises w Site.node_save = None /\ g' = log (Saved (node g)) g.
Proof.
  unfold node_save. destruct (raises w _); intros H; [discriminate|].
  by injection H as <- _.
Qed.

Lemma lift_done {A} (o : Outcome A) g g' a :
  lift o g = (g', Done a) -> o = Done a /\ g' = g.
Proof. unfold lift. by intros [= -> ->]. Qed.

Lemma modify_done f g g' u : modify f g = (g', Done u) -> g' = f g.
Proof. unfold modify. by intros [= <-]. Qed.

Lemma get_done {A} (f : Globals -> A) g g' a :
  get f g = (g', Done a) -> a = f g /\ g' = g.
Proof. unfold get. by intros [= <- <-]. Qed.

Lemma read_done {A} name (f : Globals -> option A) g g' a :
  read name f g = (g', Done a) -> f g = Some a /\ g' = g.
Proof.
  unfold read. destruct (f g); intros H; [|discriminate].
  by injection H as <- <-.
Qed.

Lemma ret_done {A} (a b : A) g g' : ret a g = (g', Done b) -> b = a /\ g' = g.
Proof. unfold ret. by intros [= <- <-]. Qed.

Lemma with_qm_session_done {A} (body : Script A) g g' a :
  with_qm_session w body g = (g', Done a) ->
  raises w Site.qm_session = None /\ raises w Site.qm_session_exit = None /\
  exists g1, body (log (Returned Site.qm_session) g) = (g1, Done a) /\
    g' = log (Returned Site.qm_session_exit) g1.
Proof.
  unfold with_qm_session. intros H.
  apply bind_done in H as ([] & g0 & Hc & H). apply call_done in Hc as (He & ->).
  destruct (body _) as [g1 [b|e|]] eqn:Hb;
    destruct (raises w Site.qm_session_exit) eqn:Hx; try discriminate.
  injection H as <- <-. eauto.
Qed.

(** The polling loop ends normally only when a query found the job
    finished; every query before it found it still processing. *)
Lemma poll_done fuel k g g' u :
  poll w fuel k g = (g', Done u) ->
  exists j, (j < fuel)%nat /\ processing w (k + j) = false /\
    (forall i, (i < j)%nat -> processing w (k + i) = true) /\
    g' = add_trace (poll_rounds k j ++ [IsProcessing (k + j) false]) g.
Proof.
  revert k g. induction fuel as [|fuel IH]; intros k g H; simpl in H.
  - discriminate.
  - apply bind_done in H as (b & g1 & Hq & H).
    apply is_processing_done in Hq as (_ & -> & ->).
    destruct (processing w k) eqn:Hk.
    + apply bind_done in H as ([] & g2 & Hf & H).
      apply call_done in Hf as (_ & ->).
      apply bind_done in H as ([] & g3 & Hc & H).
      apply call_done in Hc as (_ & ->).
      apply IH in H as (j & Hj & Hend & Hbusy & ->).
      exists (S j). split; [lia|]. split.
      { by replace (k + S j)%nat with (S k + j)%nat by lia. }
      split.
      { intros [|i] Hi.
        - by rewrite Nat.add_0_r.
        - replace (k + S i)%nat with (S k + i)%nat by lia. apply Hbusy; lia. }
      unfold log. rewrite !add_trace_add_trace. f_equal.
      replace (k + S j)%nat with (S k + j)%nat by lia.
      simpl. reflexivity.
    + apply ret_done in H as (_ & ->).
      exists 0%nat. rewrite Nat.add_0_r.
      split; [lia|]. split; [done|]. split; [lia|]. reflexivity.
Qed.

End Steps.

(** ** Runs that complete *)

Ltac step_prim w H :=
  lazymatch type of H with
  | call _ _ _ = _ => apply (call_done w) in H as (? & ->)
  | node_save _ _ = _ => apply (node_save_done w) in H as (? & ->)
  | lift _ _ = _ => apply lift_done in H as (? & ->)
  | modify _ _ = _ => apply modify_done in H as ->
  | get _ _ = _ => apply get_done in H as (-> & ->)
  | read _ _ _ = _ => apply read_done in H as (? & ->)
  | ret _ _ = _ => apply ret_done in H as (-> & ->)
  end.

Ltac step w H :=
  let a := fresh "a" in
  let g := fresh "g" in
  let Hs := fresh "Hs" in
  apply bind_done in H as (a & g & Hs & H); step_prim w Hs.

Section Completed.
Variable w : World.

(** An analysis block that runs to its end used a bound [date_time], made
    its fit, and stored the fit results and the figure. *)
Lemma analysis_done m qs ds g g' u :
  Data_analysis w m qs ds g = (g', Done u) ->
  exists c r dt,
    curve_of m ds (fit_oscillation_decay w m ds) = Done c /\
    fit_results_of (fit_oscillation_decay w m ds) qs = Done r /\
    date_time g = Some dt /\
    g' = {| node :=
              {| parameters := parameters (node g);
                 results :=
                   <[figure_key m :=
                       VFigure (GridFigure ds c r dt
                                  (Parameters.multiplexed (parameters (node g))))]>
                     (<["fit_results" := VFitResults r]> (results (node g)));
                 machine := machine (node g);
                 outcomes := outcomes (node g) |};
            qmm := qmm g; job := job g; date_time := date_time g;
            trace := trace g ++ analysis_events m |}.
Proof.
  unfold Data_analysis. intros H.
  step w H. step w H. step w H. step w H. step w H. step w H. step w H.
  step w H. step w H. step w H.
  apply modify_done in H as ->.
  exists a0, a2, a6. repeat split; try done.
  unfold log, add_trace, set_node, set_results, analysis_events; simpl.
  rewrite <- !app_assoc. reflexivity.
Qed.

End Completed.

Section Runs.
Variable w : World.

(** A run that is not a simulation completes only on hardware (no
    [load_data_id]), and then its node and its trace are these. *)
Lemma run_done p fuel g u :
  run w p fuel = (g, Done u) ->
  Parameters.simulate p = false ->
  Parameters.load_data_id p = None /\
  exists qs det j c_exp c_gauss r_exp r_gauss,
    let ds := hardware_dataset (result_handles w) qs p in
    select_qubits (state_file w) (Parameters.qubits p) = Done qs /\
    detuning p = Done det /\
    (j < fuel)%nat /\ processing w j = false /\
    (forall i, (i < j)%nat -> processing w i = true) /\
    curve_of exponential ds (fit_oscillation_decay w exponential ds) = Done c_exp /\
    fit_results_of (fit_oscillation_decay w exponential ds) qs = Done r_exp /\
    curve_of gaussian ds (fit_oscillation_decay w gaussian ds) = Done c_gauss /\
    fit_results_of (fit_oscillation_decay w gaussian ds) qs = Done r_gauss /\
    node g = final_node w p qs c_exp c_gauss r_exp r_gauss /\
    trace g = completed_trace j (final_node w p qs c_exp c_gauss r_exp r_gauss).
Proof.
  unfold run, script. intros H Hsim.
  apply bind_done in H as ([mach qs] & gi & Hi & H).
  apply bind_done in H as (prog & gp & Hp & H).
  apply bind_done in H as ([] & gx & Hx & H).
  unfold fetch_and_analyse in H. unfold Simulate_or_execute in Hx.
  rewrite Hsim in H, Hx. simpl fst in *. simpl snd in *.
  unfold Initialize_QuAM_and_QOP in Hi.
  step w Hi. step w Hi. step w Hi. step w Hi.
  apply bind_done in Hi as ([] & g0 & Hc & Hi).
  unfold QUA_program in Hp. step w Hp. step w Hp.
  apply ret_done in Hp as (-> & ->).
  destruct (Parameters.load_data_id p) as [id|] eqn:Hid.
  - (* loaded data: date_time is never bound *)
    exfalso.
    apply ret_done in Hc as (_ & ->).
    step w Hi. apply ret_done in Hi as (Hi & ->).
    apply ret_done in Hx as (_ & ->).
    apply bind_done in H as (v & g2 & Hd & H).
    unfold Data_fetching_and_dataset_creation in Hd. rewrite Hid in Hd.
    apply bind_done in Hd as (v' & g3 & Hd1 & Hd).
    step w Hd1. step w Hd1. step w Hd1.
    destruct (_ !! "ds") as [v0|] eqn:Hv in Hd1; [|discriminate].
    apply ret_done in Hd1 as (-> & ->).
    step w Hd. apply ret_done in Hd as (-> & ->).
    step w H.
    apply bind_done in H as ([] & g4 & Ha & H).
    apply analysis_done in Ha as (c & r & dt & _ & _ & Hdt & _).
    simpl in Hdt. discriminate.
  - split; [reflexivity|].
    step w Hc. apply modify_done in Hc as ->.
    step w Hi. apply ret_done in Hi as (Hi & ->).
    injection Hi as -> ->.
    unfold execute_branch in Hx.
    step w Hx. step w Hx. step w Hx.
    apply with_qm_session_done in Hx as (_ & _ & gb & Hb & ->).
    step w Hb. step w Hb. step w Hb.
    apply poll_done in Hb as (j & Hj & Hend & Hbusy & ->).
    apply bind_done in H as (v & g2 & Hd & H).
    unfold Data_fetching_and_dataset_creation in Hd. rewrite Hid in Hd.
    apply bind_done in Hd as (v' & g3 & Hd1 & Hd).
    step w Hd1. step w Hd1. apply ret_done in Hd1 as (-> & ->).
    step w Hd. apply ret_done in Hd as (-> & ->).
    step w H. simpl in *.
    match goal with Hx : Done _ = Done _ |- _ => injection Hx as <- end.
    apply bind_done in H as ([] & g4 & Ha & H).
    apply analysis_done in Ha as (c1 & r1 & dt1 & Hc1 & Hr1 & Hdt1 & ->).
    apply bind_done in H as ([] & g5 & Ha & H).
    apply analysis_done in Ha as (c2 & r2 & dt2 & Hc2 & Hr2 & Hdt2 & ->).
    unfold Save_results in H.
    step w H. step w H. step w H. step w H.
    apply node_save_done in H as (_ & ->).
    simpl in Hdt1, Hdt2. injection Hdt1 as <-. injection Hdt2 as <-.
    match goal with
    | Hq : select_qubits _ _ = Done ?q, Hd : detuning _ = Done ?d |- _ =>
        exists q, d, j, c1, c2, r1, r2
    end. simpl.
    repeat split; try done.
    unfold completed_trace, execute_prelude. simpl.
    rewrite <- !app_assoc. simpl. reflexivity.
Qed.

End Runs.

(** ** What every run lets an observer see *)

Lemma last_threw_app tr1 tr2 :
  last_threw (tr1 ++ tr2)
  = match last_threw tr2 with
    | Some e => Some e
    | None => last_threw tr1
    end.
Proof.
  induction tr1 as [|ev tr1 IH]; simpl.
  - by destruct (last_threw tr2).
  - rewrite IH. by destruct (last_threw tr2).
Qed.

Lemma last_threw_None tr i s e :
  last_threw tr = None -> tr !! i = Some (Threw s e) -> False.
Proof.
  revert i. induction tr as [|ev tr IH]; intros i Hn Hi; [by rewrite lookup_nil in Hi|].
  simpl in Hn. destruct (last_threw tr) eqn:Hl; [discriminate|].
  destruct i as [|i]; simpl in Hi.
  - injection Hi as ->. discriminate.
  - by apply (IH i).
Qed.

(** The last exception is the one of a given call when no later call
    raised. *)
Lemma last_threw_at tr i s e :
  tr !! i = Some (Threw s e) ->
  (forall k s' e', (i < k)%nat -> tr !! k <> Some (Threw s' e')) ->
  last_threw tr = Some e.
Proof.
  revert i. induction tr as [|ev tr IH]; intros i Hi Hlater;
    [by rewrite lookup_nil in Hi|].
  simpl. destruct i as [|i]; simpl in Hi.
  - injection Hi as ->.
    destruct (last_threw tr) as [e'|] eqn:Hl; [|done].
    exfalso. clear IH.
    assert (Hex : exists k s' e'', tr !! k = Some (Threw s' e'')).
    { clear Hlater. induction tr as [|ev tr IH]; [discriminate|].
      simpl in Hl. destruct (last_threw tr) eqn:Hl'.
      - destruct IH as (k & s' & e'' & Hk); [done|]. by exists (S k), s', e''.
      - destruct ev; try discriminate. by eexists 0%nat, _, _. }
    destruct Hex as (k & s' & e'' & Hk).
    by apply (Hlater (S k) s' e''); [lia|].
  - rewrite (IH i Hi); [done|].
    intros k s' e' Hk. apply (Hlater (S k)). lia.
Qed.

Section Observed.
Variable w : World.
Variable S : Site.t -> bool.

Lemma emits_silent {A} (m : Script A) :
  (forall g g' o, m g = (g', o) -> trace g' = trace g /\ True) ->
  emits S m.
Proof.
  intros Hm g g' o H. apply Hm in H as [Ht _].
  exists []. rewrite app_nil_r. split; [done|]. split; [constructor|].
  split; [discriminate|]. intros i s e k ev Hi. by rewrite lookup_nil in Hi.
Qed.

Lemma emits_ret {A} (a : A) : emits S (ret a).
Proof. apply emits_silent. by intros g g' o [= <- _]. Qed.

Lemma emits_lift {A} (o : Outcome A) : emits S (lift o).
Proof. apply emits_silent. by intros g g' o' [= <- _]. Qed.

Lemma emits_get {A} (f : Globals -> A) : emits S (get f).
Proof. apply emits_silent. by intros g g' o' [= <- _]. Qed.

Lemma emits_read {A} name (f : Globals -> option A) : emits S (read name f).
Proof.
  apply emits_silent. intros g g' o'. unfold read.
  by destruct (f g); intros [= <- _].
Qed.

Lemma emits_modify f :
  (forall g, trace (f g) = trace g) -> emits S (modify f).
Proof. intros Hf. apply emits_silent. intros g g' o' [= <- _]. by rewrite Hf. Qed.

Lemma propagated_one {A} (ev : Event) (o : Outcome A) :
  match ev with Threw _ e => o = Raised e | _ => True end ->
  propagated [ev] o.
Proof.
  intros Ho. split.
  - intros e. simpl. destruct ev; try discriminate. by intros [= <-].
  - intros [|i] s e [|k] ev' Hi Hk Hev; simpl in *; try lia;
      by rewrite ?lookup_nil in *.
Qed.

Lemma emits_one {A} (m : Script A) (s : Site.t) :
  S s = true ->
  (forall g g' o, m g = (g', o) ->
     exists ev, site_of ev = s /\ trace g' = trace g ++ [ev] /\
       match ev with Threw _ e => o = Raised e | _ => True end) ->
  emits S m.
Proof.
  intros HS Hm g g' o H. apply Hm in H as (ev & Hs & Ht & Ho).
  exists [ev]. split; [done|]. split.
  - constructor; [by rewrite Hs | constructor].
  - by apply propagated_one.
Qed.

Lemma emits_call s : S s = true -> emits S (call w s).
Proof.
  intros HS. apply (emits_one _ s HS). intros g g' o. unfold call.
  destruct (raises w s) as [e|]; intros [= <- <-].
  - by exists (Threw s e).
  - by exists (Returned s).
Qed.

Lemma emits_is_processing k :
  S (Site.is_processing k) = true -> emits S (is_processing w k).
Proof.
  intros HS. apply (emits_one _ _ HS). intros g g' o. unfold is_processing.
  destruct (raises w _) as [e|]; intros [= <- <-].
  - by exists (Threw (Site.is_processing k) e).
  - by exists (IsProcessing k (processing w k)).
Qed.

Lemma emits_node_save : S Site.node_save = true -> emits S (node_save w).
Proof.
  intros HS. apply (emits_one _ _ HS). intros g g' o. unfold node_save.
  destruct (raises w _) as [e|]; intros [= <- <-].
  - by exists (Threw Site.node_save e).
  - by exists (Saved (node g)).
Qed.

(** Two traces one after the other, the first without a raising call. *)
Lemma propagated_app {A} tr1 tr2 (o : Outcome A) :
  last_threw tr1 = None -> propagated tr2 o -> propagated (tr1 ++ tr2) o.
Proof.
  intros Hn [Hlast Hafter]. split.
  - intros e. rewrite last_threw_app, Hn.
    destruct (last_threw tr2) as [e2|] eqn:H2; [|discriminate].
    intros [= <-]. by apply Hlast.
  - intros i s e k ev Hi Hk Hev.
    destruct (decide (i < length tr1)%nat) as [Hlt|Hge].
    + rewrite lookup_app_l in Hi by done. by destruct (last_threw_None _ _ _ _ Hn Hi).
    + rewrite lookup_app_r in Hi by lia. rewrite lookup_app_r in Hev by lia.
      eapply Hafter; [exact Hi| |exact Hev]. lia.
Qed.

Lemma emits_bind {A B} (m : Script A) (f : A -> Script B) :
  emits S m -> (forall a, emits S (f a)) -> emits S (bind m f).
Proof.
  intros Hm Hf g g' o. unfold bind.
  destruct (m g) as [g1 o1] eqn:H1.
  apply Hm in H1 as (tr1 & Ht1 & Hw1 & Hp1).
  destruct o1 as [a|e|].
  - intros H2. apply Hf in H2 as (tr2 & Ht2 & Hw2 & Hp2).
    exists (tr1 ++ tr2). split; [by rewrite Ht2, Ht1, app_assoc|].
    split; [by apply Forall_app|].
    apply propagated_app; [|done].
    destruct (last_threw tr1) as [e|] eqn:Hl; [|done].
    by apply (proj1 Hp1) in Hl.
  - intros [= <- <-]. exists tr1. split; [done|]. split; [done|].
    destruct Hp1 as [Hlast Hafter]. split; [|done].
    intros e' Hl. apply Hlast in Hl as [= ->]. done.
  - intros [= <- <-]. exists tr1. split; [done|]. split; [done|].
    destruct Hp1 as [Hlast Hafter]. split; [|done].
    intros e' Hl. by apply Hlast in Hl.
Qed.

(** The session block: whatever the body emits, then the leaving of the
    block unless the body is still running. *)
Lemma emits_with_qm_session {A} (body : Script A) :
  S Site.qm_session = true -> S Site.qm_session_exit = true ->
  emits S body -> emits S (with_qm_session w body).
Proof.
  intros Hin Hout Hb. unfold with_qm_session.
  apply emits_bind; [by apply emits_call|]. intros _ g g' o.
  destruct (body g) as [g1 o1] eqn:H1.
  apply Hb in H1 as (tr1 & Ht1 & Hw1 & [Hlast Hafter]).
  assert (Hexit : forall ev (o' : Outcome A),
    site_of ev = Site.qm_session_exit ->
    match ev with
    | Threw _ e => o' = Raised e
    | _ => o' = o1 /\ o1 <> Unfinished
    end ->
    within S (tr1 ++ [ev]) /\ propagated (tr1 ++ [ev]) o').
  { intros ev o' Hs Ho. split.
    { apply Forall_app. split; [done|]. constructor; [by rewrite Hs|constructor]. }
    split.
    - intros e. rewrite last_threw_app. simpl.
      destruct ev as [s|s e'|k b|n].
      * destruct Ho as [-> _]. by apply Hlast.
      * intros [= <-]. done.
      * destruct Ho as [-> _]. by apply Hlast.
      * destruct Ho as [-> _]. by apply Hlast.
    - intros i s e k ev' Hi Hk Hev.
      destruct (decide (k < length tr1)%nat) as [Hlt|Hge].
      + rewrite lookup_app_l in Hi by lia. rewrite lookup_app_l in Hev by done.
        by eapply Hafter.
      + rewrite lookup_app_r in Hev by lia.
        destruct (k - length tr1)%nat; simpl in Hev; [|by rewrite lookup_nil in Hev].
        by injection Hev as <-. }
  destruct o1 as [a|e|].
  - destruct (raises w Site.qm_session_exit) as [e'|]; intros [= <- <-].
    + exists (tr1 ++ [Threw Site.qm_session_exit e']).
      split; [by simpl; rewrite Ht1, app_assoc|]. by apply Hexit.
    + exists (tr1 ++ [Returned Site.qm_session_exit]).
      split; [by simpl; rewrite Ht1, app_assoc|]. by apply Hexit.
  - destruct (raises w Site.qm_session_exit) as [e'|]; intros [= <- <-].
    + exists (tr1 ++ [Threw Site.qm_session_exit e']).
      split; [by simpl; rewrite Ht1, app_assoc|]. by apply Hexit.
    + exists (tr1 ++ [Returned Site.qm_session_exit]).
      split; [by simpl; rewrite Ht1, app_assoc|]. by apply Hexit.
  - intros [= <- <-]. exists tr1. done.
Qed.

Lemma emits_poll fuel k :
  (forall i, S (Site.is_processing i) = true) ->
  (forall i, S (Site.fetch_all i) = true) ->
  (forall i, S (Site.progress_counter i) = true) ->
  emits S (poll w fuel k).
Proof.
  intros H1 H2 H3. revert k. induction fuel as [|fuel IH]; intros k; simpl.
  - apply emits_lift.
  - apply emits_bind; [by apply emits_is_processing|].
    intros [|]; [|apply emits_ret].
    apply emits_bind; [by apply emits_call|]. intros _.
    apply emits_bind; [by apply emits_call|]. intros _. apply IH.
Qed.
End Observed.

Ltac emits_go :=
  repeat first
    [ apply emits_ret
    | apply emits_lift
    | apply emits_get
    | apply emits_read
    | apply emits_modify; reflexivity
    | apply emits_call; reflexivity
    | apply emits_node_save; reflexivity
    | apply emits_poll; intros ?; reflexivity
    | apply emits_with_qm_session; [reflexivity | reflexivity |]
    | match goal with
      | |- emits _ (match ?x with _ => _ end) => destruct x
      end
    | apply emits_bind; [|intros ?] ].

Section Everywhere.
Variable w : World.

Lemma emits_analysis S m qs ds :
  (forall s, not_node_save s = true -> S s = true) ->
  emits S (Data_analysis w m qs ds).
Proof.
  intros HS. unfold Data_analysis.
  repeat first
    [ apply emits_lift | apply emits_get | apply emits_read
    | apply emits_modify; reflexivity
    | apply emits_call; apply HS; reflexivity
    | apply emits_bind; [|intros ?] ].
Qed.

Lemma emits_script p fuel : emits (fun _ => true) (script w p fuel).
Proof.
  unfold script, Initialize_QuAM_and_QOP, QUA_program, Simulate_or_execute, fetch_and_analyse,
    simulate_branch, execute_branch, Data_fetching_and_dataset_creation, Save_results.
  emits_go; apply emits_analysis; reflexivity.
Qed.
End Everywhere.

Section Saving.
Variable w : World.

Lemma saves_of_emits {A} (m : Script A) : emits not_node_save m -> saves m.
Proof.
  intros Hm g g' o H. apply Hm in H as (tr & Ht & Hw & _).
  exists tr. split; [done|]. intros i n Hi.
  apply (Forall_lookup_1 _ _ _ _ Hw) in Hi. discriminate.
Qed.

Lemma saves_node_save : saves (node_save w).
Proof.
  intros g g' o. unfold node_save.
  destruct (raises w _) as [e|]; intros [= <- <-].
  - exists [Threw Site.node_save e]. split; [done|].
    intros [|i] n Hi; simpl in Hi; [discriminate | by rewrite lookup_nil in Hi].
  - exists [Saved (node g)]. split; [done|].
    intros [|i] n Hi; simpl in Hi; [|by rewrite lookup_nil in Hi].
    injection Hi as <-. eauto.
Qed.

Lemma saves_bind {A B} (m : Script A) (f : A -> Script B) :
  emits not_node_save m -> (forall a, saves (f a)) -> saves (bind m f).
Proof.
  intros Hm Hf g g' o. unfold bind.
  destruct (m g) as [g1 o1] eqn:H1.
  apply Hm in H1 as (tr1 & Ht1 & Hw1 & _).
  assert (Hno : forall i n, tr1 !! i = Some (Saved n) -> False).
  { intros i n Hi. apply (Forall_lookup_1 _ _ _ _ Hw1) in Hi. discriminate. }
  destruct o1 as [a|e|].
  - intros H2. apply Hf in H2 as (tr2 & Ht2 & Hs2).
    exists (tr1 ++ tr2). split; [by rewrite Ht2, Ht1, app_assoc|].
    intros i n Hi. destruct (decide (i < length tr1)%nat) as [Hlt|Hge].
    + rewrite lookup_app_l in Hi by done. by apply Hno in Hi.
    + rewrite lookup_app_r in Hi by lia.
      apply Hs2 in Hi as (Ho & Hl & Hn). split; [done|]. split; [|done].
      rewrite length_app. lia.
  - intros [= <- <-]. exists tr1. split; [done|].
    intros i n Hi. by apply Hno in Hi.
  - intros [= <- <-]. exists tr1. split; [done|].
    intros i n Hi. by apply Hno in Hi.
Qed.

Lemma saves_bind_ret {A B} (m : Script A) (b : B) :
  saves m -> saves (bind m (fun _ => ret b)).
Proof.
  intros Hm g g' o. unfold bind, ret.
  destruct (m g) as [g1 o1] eqn:H1.
  apply Hm in H1 as (tr1 & Ht1 & Hs1).
  destruct o1 as [a|e|]; intros [= <- <-]; exists tr1; (split; [done|]);
    intros i n Hi; apply Hs1 in Hi as ([a' Ho] & Hl & Hn);
    try discriminate; eauto.
Qed.

Ltac saves_go :=
  repeat first
    [ apply saves_node_save
    | apply saves_bind;
      [ first [ apply emits_analysis; intros ? Hs; exact Hs | emits_go ]
      | intros ? ] ].

Lemma saves_script p fuel : saves (script w p fuel).
Proof.
  unfold script, Simulate_or_execute, fetch_and_analyse.
  apply saves_bind; [unfold Initialize_QuAM_and_QOP; emits_go|]. intros mq.
  apply saves_bind; [unfold QUA_program; emits_go|]. intros prog.
  destruct (Parameters.simulate p).
  - apply saves_bind_ret. unfold simulate_branch. saves_go.
  - apply saves_bind.
    { destruct (Parameters.load_data_id p); unfold execute_branch; emits_go. }
    intros _. unfold Save_results.
    apply saves_bind; [unfold Data_fetching_and_dataset_creation; emits_go|]. intros v.
    saves_go.
Qed.

(** Whatever the run, a saved node is saved by the last step of a run that
    ends normally, and it is the node the run ends with. *)
Lemma saved_last p fuel g o i n :
  run w p fuel = (g, o) ->
  trace g !! i = Some (Saved n) ->
  o = Done tt /\ length (trace g) = S i /\ n = node g.
Proof.
  intros H Hi. apply saves_script in H as (tr & Ht & Hs).
  simpl in Ht. subst tr. apply Hs in Hi as ([[] ->] & Hl & Hn). done.
Qed.
End Saving.

Section Acquisition.
Variable w : World.

Lemma run_done_sim p fuel g u :
  run w p fuel = (g, Done u) ->
  Parameters.simulate p = true ->
  node g = simulation_node w p /\
  trace g = simulation_trace (simulation_node w p).
Proof.
  unfold run, script. intros H Hsim.
  apply bind_done in H as ([mach qs] & gi & Hi & H).
  apply bind_done in H as (prog & gp & Hp & H).
  apply bind_done in H as ([] & gx & Hx & H).
  unfold fetch_and_analyse in H. unfold Simulate_or_execute in Hx.
  rewrite Hsim in H, Hx. simpl fst in *. simpl snd in *.
  apply ret_done in H as (_ & ->).
  unfold Initialize_QuAM_and_QOP in Hi.
  step w Hi. step w Hi. step w Hi. step w Hi.
  apply bind_done in Hi as ([] & g0 & Hc & Hi).
  unfold QUA_program in Hp. step w Hp. step w Hp.
  apply ret_done in Hp as (-> & ->).
  step w Hi. apply ret_done in Hi as (Hi & ->). injection Hi as -> ->.
  unfold simulate_branch in Hx.
  destruct (Parameters.load_data_id p) as [id|] eqn:Hid.
  - apply ret_done in Hc as (_ & ->).
    step w Hx. step w Hx. simpl in *. discriminate.
  - step w Hc. apply modify_done in Hc as ->.
    step w Hx. step w Hx. step w Hx. step w Hx. step w Hx. step w Hx.
    step w Hx. step w Hx.
    apply node_save_done in Hx as (_ & ->). simpl. done.
Qed.

Lemma script_split p fuel g :
  script w p fuel g
  = bind (acquire w p fuel) (fun mq => fetch_and_analyse w p mq.1 mq.2) g.
Proof.
  unfold script, acquire, bind, ret.
  destruct (Initialize_QuAM_and_QOP w p g) as [g1 [[mach qs]|e|]]; try reflexivity.
  destruct (QUA_program w p _ g1) as [g2 [prog|e|]]; try reflexivity.
  destruct (Simulate_or_execute w p fuel _ prog g2) as [g3 [[]|e|]]; reflexivity.
Qed.

(** On hardware the first three cells touch no site of result fetching or
    analysis. *)
Lemma emits_acquire p fuel :
  Parameters.simulate p = false ->
  emits (fun s => negb (after_polling s)) (acquire w p fuel).
Proof.
  intros Hsim.
  unfold acquire, Initialize_QuAM_and_QOP, QUA_program, Simulate_or_execute, execute_branch.
  rewrite Hsim. emits_go.
Qed.

(** And when they end normally on hardware, the polling loop has seen the
    job finish. *)
Lemma acquire_done p fuel g mq :
  acquire w p fuel (start p) = (g, Done mq) ->
  Parameters.simulate p = false ->
  Parameters.load_data_id p = None ->
  exists j, (j < fuel)%nat /\ processing w j = false /\
    (forall i, (i < j)%nat -> processing w i = true) /\
    trace g = execute_prelude ++ poll_rounds 0 j
              ++ [IsProcessing j false; Returned Site.qm_session_exit].
Proof.
  unfold acquire. intros H Hsim Hid.
  apply bind_done in H as ([mach qs] & gi & Hi & H).
  apply bind_done in H as (prog & gp & Hp & H).
  apply bind_done in H as ([] & gx & Hx & H).
  apply ret_done in H as (_ & ->).
  unfold Simulate_or_execute in Hx. rewrite Hsim, Hid in Hx.
  unfold Initialize_QuAM_and_QOP in Hi. rewrite Hid in Hi.
  step w Hi. step w Hi. step w Hi. step w Hi.
  apply bind_done in Hi as ([] & g0 & Hc & Hi).
  step w Hc. apply modify_done in Hc as ->.
  step w Hi. apply ret_done in Hi as (Hi & ->). injection Hi as -> ->.
  unfold QUA_program in Hp. step w Hp. step w Hp.
  apply ret_done in Hp as (-> & ->).
  unfold execute_branch in Hx.
  step w Hx. step w Hx. step w Hx.
  apply with_qm_session_done in Hx as (_ & _ & gb & Hb & ->).
  step w Hb. step w Hb. step w Hb.
  apply poll_done in Hb as (j & Hj & Hend & Hbusy & ->).
  exists j. simpl. repeat split; try done.
  by rewrite <- app_assoc.
Qed.
End Acquisition.

(** ** Error handling *)

(** C9: the script catches no exception and has no error path of its own.
    In every run, whatever the world and the parameters, once a library
    call has raised (the hardware session timing out, a fit that does not
    converge, or any other) the script does nothing more: the only event
    that can follow is the library's own leaving of the session block, and
    the run ends with an exception, the one of the last call that raised.
    So the exception of the call is the outcome of the script, unless the
    leaving of the session block raises in its turn. *)
Theorem library_exceptions_propagate (w : World) (p : Parameters.t) (fuel : nat)
    (g : Globals) (o : Outcome unit) (i : nat) (s : Site.t) (e : Exception) :
  run w p fuel = (g, o) ->
  trace g !! i = Some (Threw s e) ->
  (exists e', last_threw (trace g) = Some e' /\ o = Raised e') /\
  (forall k ev, (i < k)%nat -> trace g !! k = Some ev ->
     site_of ev = Site.qm_session_exit) /\
  ((forall k e', (i < k)%nat ->
      trace g !! k <> Some (Threw Site.qm_session_exit e')) ->
   o = Raised e).
Proof.
  intros H Hi. apply emits_script in H as (tr & Ht & _ & [Hlast Hafter]).
  simpl in Ht. subst tr. split; [|split].
  - destruct (last_threw (trace g)) as [e'|] eqn:Hl.
    + exists e'. split; [done|]. by apply Hlast.
    + by destruct (last_threw_None _ _ _ _ Hl Hi).
  - intros k ev Hk Hev. by eapply Hafter.
  - intros Hquiet. apply Hlast. apply (last_threw_at _ i s); [done|].
    intros k s' e' Hk Hev.
    pose proof (Hafter _ _ _ _ _ Hi Hk Hev) as Hs. simpl in Hs. subst s'.
    by apply (Hquiet k e').
Qed.

Lemma library_exceptions_propagate_witness :
  (exists e', last_threw (trace (fst (run Lab.timeout_world Lab.params 5))) = Some e' /\
     snd (run Lab.timeout_world Lab.params 5) = Raised e') /\
  (forall k ev, (7 < k)%nat ->
     trace (fst (run Lab.timeout_world Lab.params 5)) !! k = Some ev ->
     site_of ev = Site.qm_session_exit) /\
  ((forall k e', (7 < k)%nat ->
      trace (fst (run Lab.timeout_world Lab.params 5)) !! k
      <> Some (Threw Site.qm_session_exit e')) ->
   snd (run Lab.timeout_world Lab.params 5) = Raised (LibraryError "session timeout")).
Proof.
  apply (library_exceptions_propagate Lab.timeout_world Lab.params 5
           (fst (run Lab.timeout_world Lab.params 5))
           (snd (run Lab.timeout_world Lab.params 5))
           7 Site.qm_session (LibraryError "session timeout")).
  - apply surjective_pairing.
  - vm_compute. reflexivity.
Defined.

(** ** The polling loop *)

Lemma within_lookup S tr i ev :
  within S tr -> tr !! i = Some ev -> S (site_of ev) = true.
Proof. intros Hw Hi. exact (Forall_lookup_1 _ _ _ _ Hw Hi). Qed.

Lemma poll_rounds_length k j : length (poll_rounds k j) = (3 * j)%nat.
Proof.
  unfold poll_rounds. revert k. induction j as [|j IH]; intros k; simpl; [done|].
  rewrite IH. lia.
Qed.

(** C8: on hardware (no simulation, no loaded data) the script polls the
    job: every query that finds it still processing is followed by a fetch
    of the iteration counter and the progress bar, and no call of result
    fetching or analysis is made before a query has found the job finished.
    Any such call in the trace comes after the whole prelude, the busy
    rounds and the final answer "not processing". *)
Theorem analysis_waits_for_the_job (w : World) (p : Parameters.t) (fuel : nat)
    (g : Globals) (o : Outcome unit) (i : nat) (ev : Event) :
  run w p fuel = (g, o) ->
  Parameters.simulate p = false ->
  Parameters.load_data_id p = None ->
  trace g !! i = Some ev ->
  after_polling (site_of ev) = true ->
  exists j rest,
    processing w j = false /\
    (forall k, (k < j)%nat -> processing w k = true) /\
    trace g = execute_prelude ++ poll_rounds 0 j ++ IsProcessing j false :: rest /\
    (length (execute_prelude ++ poll_rounds 0 j) < i)%nat.
Proof.
  intros H Hsim Hid Hi Hev. unfold run in H. rewrite script_split in H.
  unfold bind in H.
  destruct (acquire w p fuel (start p)) as [g1 o1] eqn:HA.
  pose proof (emits_acquire w p fuel Hsim _ _ _ HA) as (tr1 & Ht1 & Hw1 & _).
  simpl in Ht1.
  assert (Hnot : forall k ev', trace g1 !! k = Some ev' ->
                   after_polling (site_of ev') = false).
  { intros k ev' Hk. rewrite Ht1 in Hk.
    apply (within_lookup _ _ _ _ Hw1) in Hk. by apply negb_true_iff in Hk. }
  destruct o1 as [mq|e|].
  - apply acquire_done in HA as (j & Hj & Hend & Hbusy & Htr); [|done..].
    assert (He : emits (fun _ => true) (fetch_and_analyse w p mq.1 mq.2)).
    { unfold fetch_and_analyse. rewrite Hsim.
      unfold Data_fetching_and_dataset_creation, Save_results.
      emits_go; apply emits_analysis; reflexivity. }
    apply He in H as (rest & Ht & _).
    exists j, (Returned Site.qm_session_exit :: rest).
    split; [done|]. split; [done|]. split.
    { rewrite Ht, Htr, <- !app_assoc. reflexivity. }
    destruct (decide (i < length (trace g1))%nat) as [Hlt|Hge].
    + rewrite Ht, lookup_app_l in Hi by done.
      apply Hnot in Hi. congruence.
    + rewrite Htr, app_assoc, length_app in Hge.
      change (length [IsProcessing j false; Returned Site.qm_session_exit])
        with 2%nat in Hge. lia.
  - injection H as <- <-. apply Hnot in Hi. congruence.
  - injection H as <- <-. apply Hnot in Hi. congruence.
Qed.

Lemma analysis_waits_for_the_job_witness :
  exists j rest,
    processing Lab.world j = false /\
    (forall k, (k < j)%nat -> processing Lab.world k = true) /\
    trace (fst (run Lab.world Lab.params 5))
    = execute_prelude ++ poll_rounds 0 j ++ IsProcessing j false :: rest /\
    (length (execute_prelude ++ poll_rounds 0 j) < 19)%nat.
Proof.
  apply (analysis_waits_for_the_job Lab.world Lab.params 5
           (fst (run Lab.world Lab.params 5)) (snd (run Lab.world Lab.params 5))
           19 (Returned (Site.fit_oscillation_decay exponential))).
  - apply surjective_pairing.
  - reflexivity.
  - reflexivity.
  - vm_compute. reflexivity.
  - reflexivity.
Defined.

(** ** Simulation runs *)

Lemma touches_within S T tr :
  within S tr -> (forall s, S s = true -> T s = false) -> touches T tr = false.
Proof.
  intros Hw HST. unfold touches. induction Hw as [|ev tr Hev _ IH]; simpl; [done|].
  by rewrite (HST _ Hev), IH.
Qed.

Lemma emits_script_simulate w p fuel :
  Parameters.simulate p = true -> emits simulation_site (script w p fuel).
Proof.
  intros Hsim.
  unfold script, Initialize_QuAM_and_QOP, QUA_program, Simulate_or_execute, fetch_and_analyse,
    simulate_branch.
  rewrite Hsim. emits_go.
Qed.

Lemma completed_trace_lookup j n k :
  completed_trace j n !! (10 + 3 * j + k)%nat = completed_tail j n !! k.
Proof.
  unfold completed_trace. rewrite app_assoc.
  rewrite lookup_app_r; rewrite length_app, poll_rounds_length; simpl; [|lia].
  f_equal. lia.
Qed.

Lemma completed_trace_length j n : length (completed_trace j n) = (3 * j + 25)%nat.
Proof.
  unfold completed_trace. rewrite !length_app, poll_rounds_length. simpl. lia.
Qed.

(** C4, a run that refutes it: a simulation that completes makes no call
    that fetches results, builds the dataset or fits, and leaves neither a
    dataset nor fit results in the node. *)
Lemma simulation_skips_fetch_and_fit :
  snd (run Lab.world (Lab.with_simulate Lab.params) 5) = Done tt /\
  touches fetch_or_fit
    (trace (fst (run Lab.world (Lab.with_simulate Lab.params) 5))) = false /\
  results (node (fst (run Lab.world (Lab.with_simulate Lab.params) 5))) !! "ds" = None /\
  results (node (fst (run Lab.world (Lab.with_simulate Lab.params) 5))) !! "fit_results"
  = None.
Proof. vm_compute. repeat split; reflexivity. Qed.

(** C4 as amended: only runs that are not simulations fetch and fit.  A
    simulation, however it ends, calls nothing but the sites of setting up,
    simulating, plotting the samples and saving; a run without [simulate]
    that completes has fetched the results, stored the dataset built from
    them and made both fits. *)
Theorem fetch_and_fit_unless_simulated (w : World) (p : Parameters.t) (fuel : nat)
    (g : Globals) (o : Outcome unit) :
  run w p fuel = (g, o) ->
  (Parameters.simulate p = true ->
     within simulation_site (trace g) /\ touches fetch_or_fit (trace g) = false) /\
  (Parameters.simulate p = false -> o = Done tt ->
     exists qs,
       select_qubits (state_file w) (Parameters.qubits p) = Done qs /\
       In (Returned Site.fetch_results_as_xarray) (trace g) /\
       results (node g) !! "ds"
       = Some (VDataset (hardware_dataset (result_handles w) qs p)) /\
       In (Returned (Site.fit_oscillation_decay exponential)) (trace g) /\
       In (Returned (Site.fit_oscillation_decay gaussian)) (trace g)).
Proof.
  intros H. split.
  - intros Hsim. apply (emits_script_simulate w p fuel Hsim) in H as (tr & Ht & Hw & _).
    simpl in Ht. subst tr. split; [done|].
    apply (touches_within _ _ _ Hw). by intros [].
  - intros Hsim ->. apply run_done in H as (_ & H); [|done].
    destruct H as (qs & det & j & c1 & c2 & r1 & r2 & Hq & _ & _ & _ & _ & _ & _ & _ & _ & Hn & Ht).
    exists qs. split; [done|]. rewrite Hn, Ht.
    split; [|split; [|split]].
    + apply list_elem_of_In, (list_elem_of_lookup_2 _ (10 + 3 * j + 2)%nat).
      by rewrite completed_trace_lookup.
    + unfold final_node, final_results. simpl. by simplify_map_eq.
    + apply list_elem_of_In, (list_elem_of_lookup_2 _ (10 + 3 * j + 3)%nat).
      by rewrite completed_trace_lookup.
    + apply list_elem_of_In, (list_elem_of_lookup_2 _ (10 + 3 * j + 8)%nat).
      by rewrite completed_trace_lookup.
Qed.

Lemma fetch_and_fit_unless_simulated_witness :
  within simulation_site
    (trace (fst (run Lab.world (Lab.with_simulate Lab.params) 5))) /\
  touches fetch_or_fit
    (trace (fst (run Lab.world (Lab.with_simulate Lab.params) 5))) = false.
Proof.
  apply (fetch_and_fit_unless_simulated Lab.world (Lab.with_simulate Lab.params) 5
           (fst (run Lab.world (Lab.with_simulate Lab.params) 5))
           (snd (run Lab.world (Lab.with_simulate Lab.params) 5))).
  - apply surjective_pairing.
  - reflexivity.
Defined.

(** ** What is saved *)

(** A node saved by a run without [simulate] is the final node of a
    completed run on hardware, saved as the last event. *)
Lemma saved_node w p fuel g o i n :
  run w p fuel = (g, o) ->
  Parameters.simulate p = false ->
  trace g !! i = Some (Saved n) ->
  exists qs det j c_exp c_gauss r_exp r_gauss,
    let ds := hardware_dataset (result_handles w) qs p in
    select_qubits (state_file w) (Parameters.qubits p) = Done qs /\
    detuning p = Done det /\
    fit_results_of (fit_oscillation_decay w exponential ds) qs = Done r_exp /\
    fit_results_of (fit_oscillation_decay w gaussian ds) qs = Done r_gauss /\
    n = final_node w p qs c_exp c_gauss r_exp r_gauss /\
    trace g = completed_trace j n /\
    i = (3 * j + 24)%nat.
Proof.
  intros H Hsim Hi. destruct (saved_last w p fuel g o i n H Hi) as (-> & Hl & ->).
  apply run_done in H as (_ & H); [|done].
  destruct H as (qs & det & j & c1 & c2 & r1 & r2 & Hq & Hd & _ & _ & _ & _ & Hr1 & _ & Hr2 & Hn & Ht).
  exists qs, det, j, c1, c2, r1, r2. simpl. rewrite Hn.
  repeat split; try done.
  rewrite Ht, completed_trace_length in Hl. lia.
Qed.

(** X1: Runs on loaded data.  With [load_data_id] set and without [simulate]
    the script never saves: [date_time] is bound in the hardware branch
    only (line 165) and the title of the first figure reads it (line 269).
    In the laboratory the run ends there with a [NameError]. *)
Theorem loaded_data_is_never_saved (w : World) (p : Parameters.t) (fuel : nat)
    (g : Globals) (o : Outcome unit) (id : Z) :
  run w p fuel = (g, o) ->
  Parameters.simulate p = false ->
  Parameters.load_data_id p = Some id ->
  o <> Done tt /\ forall i n, trace g !! i <> Some (Saved n).
Proof.
  intros H Hsim Hid.
  assert (Hno : o <> Done tt).
  { intros ->. apply run_done in H as [Hnone _]; [|done]. congruence. }
  split; [done|]. intros i n Hi.
  by destruct (saved_last w p fuel g o i n H Hi) as (-> & _).
Qed.

Lemma loaded_data_is_never_saved_witness :
  snd (run Lab.archive_world (Lab.with_load_data_id 7 Lab.params) 5) <> Done tt /\
  forall i n,
    trace (fst (run Lab.archive_world (Lab.with_load_data_id 7 Lab.params) 5)) !! i
    <> Some (Saved n).
Proof.
  apply (loaded_data_is_never_saved Lab.archive_world
           (Lab.with_load_data_id 7 Lab.params) 5
           (fst (run Lab.archive_world (Lab.with_load_data_id 7 Lab.params) 5))
           (snd (run Lab.archive_world (Lab.with_load_data_id 7 Lab.params) 5)) 7).
  - apply surjective_pairing.
  - reflexivity.
  - reflexivity.
Defined.

Example loaded_data_ends_with_name_error :
  snd (run Lab.archive_world (Lab.with_load_data_id 7 Lab.params) 5)
  = Raised (NameError "date_time") /\
  trace (fst (run Lab.archive_world (Lab.with_load_data_id 7 Lab.params) 5))
  = [Returned Site.QualibrationNode; Returned Site.get_node_id;
     Returned Site.Quam_load; Returned Site.generate_config;
     Returned Site.program; Returned Site.load_from_id;
     Returned (Site.fit_oscillation_decay exponential);
     Returned (Site.oscillation_decay exponential);
     Returned (Site.print exponential); Returned (Site.plot_grid exponential)].
Proof. vm_compute. split; reflexivity. Qed.

(** C1, a run that refutes it: the script makes a second fit, with the
    Gaussian model, and the fit results it saves are those of that second
    fit, which replaced the ones of the exponential fit. *)
Lemma gaussian_fit_replaces_exponential :
  snd (run Lab.world Lab.params 5) = Done tt /\
  touches (fun s => match s with
                    | Site.fit_oscillation_decay gaussian => true
                    | _ => false
                    end)
    (trace (fst (run Lab.world Lab.params 5))) = true /\
  fitted_value (fit_results_of (Lab.fits exponential Lab.dataset) [Lab.qD1])
    "qD1" "freq_offset" = Some 1953125%float /\
  fitted_value (fit_results_of (Lab.fits gaussian Lab.dataset) [Lab.qD1])
    "qD1" "freq_offset" = Some 3906250%float /\
  saved_value (node (fst (run Lab.world Lab.params 5))) "qD1" "freq_offset"
  = Some 3906250%float /\
  PrimFloat.eqb 3906250 1953125 = false.
Proof. vm_compute. repeat split; reflexivity. Qed.

(** C1 as amended: the analysis fits the data twice, first with the
    exponential-decay model and then with the Gaussian-decay model, and the
    "fit_results" of every node saved by a run without [simulate] are the
    output of the second, Gaussian fit on the dataset of the run. *)
Theorem saved_fit_results_are_gaussian (w : World) (p : Parameters.t) (fuel : nat)
    (g : Globals) (o : Outcome unit) (i : nat) (n : Node) :
  run w p fuel = (g, o) ->
  Parameters.simulate p = false ->
  trace g !! i = Some (Saved n) ->
  exists qs r i_exp i_gauss,
    select_qubits (state_file w) (Parameters.qubits p) = Done qs /\
    (i_exp < i_gauss < i)%nat /\
    trace g !! i_exp = Some (Returned (Site.fit_oscillation_decay exponential)) /\
    trace g !! i_gauss = Some (Returned (Site.fit_oscillation_decay gaussian)) /\
    fit_results_of
      (fit_oscillation_decay w gaussian (hardware_dataset (result_handles w) qs p)) qs
    = Done r /\
    results n !! "ds" = Some (VDataset (hardware_dataset (result_handles w) qs p)) /\
    results n !! "fit_results" = Some (VFitResults r).
Proof.
  intros H Hsim Hi.
  destruct (saved_node w p fuel g o i n H Hsim Hi)
    as (qs & det & j & c1 & c2 & r1 & r2 & Hq & _ & _ & Hr2 & Hn & Ht & ->).
  exists qs, r2, (10 + 3 * j + 3)%nat, (10 + 3 * j + 8)%nat.
  split; [done|]. split; [lia|].
  rewrite Ht, !completed_trace_lookup. split; [done|]. split; [done|].
  split; [done|]. rewrite Hn. unfold final_node, final_results. simpl.
  split; by simplify_map_eq.
Qed.

Lemma saved_fit_results_are_gaussian_witness :
  exists qs r i_exp i_gauss,
    select_qubits (state_file Lab.world) (Parameters.qubits Lab.params) = Done qs /\
    (i_exp < i_gauss < 30)%nat /\
    trace (fst (run Lab.world Lab.params 5)) !! i_exp
    = Some (Returned (Site.fit_oscillation_decay exponential)) /\
    trace (fst (run Lab.world Lab.params 5)) !! i_gauss
    = Some (Returned (Site.fit_oscillation_decay gaussian)) /\
    fit_results_of
      (fit_oscillation_decay Lab.world gaussian
         (hardware_dataset (result_handles Lab.world) qs Lab.params)) qs
    = Done r /\
    results (node (fst (run Lab.world Lab.params 5))) !! "ds"
    = Some (VDataset (hardware_dataset (result_handles Lab.world) qs Lab.params)) /\
    results (node (fst (run Lab.world Lab.params 5))) !! "fit_results"
    = Some (VFitResults r).
Proof.
  apply (saved_fit_results_are_gaussian Lab.world Lab.params 5
           (fst (run Lab.world Lab.params 5)) (snd (run Lab.world Lab.params 5))
           30 (node (fst (run Lab.world Lab.params 5)))).
  - apply surjective_pairing.
  - reflexivity.
  - vm_compute. reflexivity.
Defined.

(** C2, a run that refutes it: after a completed run on hardware the fit
    found a frequency offset of 3906250 Hz and a T2-star of 4.096 us, and
    the machine saved with the node still holds the qubit frequency and the
    T2-star of the state file. *)
Lemma saved_qubit_parameters_are_old :
  snd (run Lab.world Lab.params 5) = Done tt /\
  machine (node (fst (run Lab.world Lab.params 5))) = Some (state_file Lab.world) /\
  saved_value (node (fst (run Lab.world Lab.params 5))) "qD1" "freq_offset"
  = Some 3906250%float /\
  saved_value (node (fst (run Lab.world Lab.params 5))) "qD1" "decay"
  = Some (1e-9 * 4096)%float /\
  saved_parameter (node (fst (run Lab.world Lab.params 5))) "qD1" Qubit.f_01
  = Some (Qubit.f_01 Lab.qD1) /\
  saved_parameter (node (fst (run Lab.world Lab.params 5))) "qD1" Qubit.T2ramsey
  = Some (Qubit.T2ramsey Lab.qD1) /\
  PrimFloat.eqb (Qubit.T2ramsey Lab.qD1) (1e-9 * 4096) = false.
Proof. vm_compute. repeat split; reflexivity. Qed.

(** C2 as amended: the script writes no qubit parameter back.  The machine
    saved with a node, in any run, is the machine read from the state file,
    unchanged; in a run without [simulate] the frequency offset and the
    decay time of the fit are saved under "fit_results" of the node's
    results only. *)
Theorem saved_machine_is_the_state_file (w : World) (p : Parameters.t) (fuel : nat)
    (g : Globals) (o : Outcome unit) (i : nat) (n : Node) :
  run w p fuel = (g, o) ->
  trace g !! i = Some (Saved n) ->
  machine n = Some (state_file w) /\
  (Parameters.simulate p = false ->
   exists r, results n !! "fit_results" = Some (VFitResults r)).
Proof.
  intros H Hi. destruct (Parameters.simulate p) eqn:Hsim.
  - destruct (saved_last w p fuel g o i n H Hi) as (-> & _ & ->).
    apply run_done_sim in H as [-> _]; [|done]. split; [done|]. discriminate.
  - destruct (saved_node w p fuel g o i n H Hsim Hi)
      as (qs & det & j & c1 & c2 & r1 & r2 & _ & _ & _ & _ & -> & _).
    split; [done|]. intros _. exists r2.
    unfold final_node, final_results. simpl. by simplify_map_eq.
Qed.

Lemma saved_machine_is_the_state_file_witness :
  machine (node (fst (run Lab.world Lab.params 5))) = Some (state_file Lab.world) /\
  (Parameters.simulate Lab.params = false ->
   exists r, results (node (fst (run Lab.world Lab.params 5))) !! "fit_results"
             = Some (VFitResults r)).
Proof.
  apply (saved_machine_is_the_state_file Lab.world Lab.params 5
           (fst (run Lab.world Lab.params 5)) (snd (run Lab.world Lab.params 5)) 30).
  - apply surjective_pairing.
  - vm_compute. reflexivity.
Defined.

(** ** The fit results *)

Lemma fit_record_keys (x y z : float) : dom (fit_record x y z) = record_keys.
Proof. unfold fit_record, record_keys. rewrite !dom_insert_L. set_solver. Qed.

Lemma loc_done (a : DataArray) label x : loc a label = Done x -> a !! label = Some x.
Proof. unfold loc. destruct (a !! label); intros [= <-]; done. Qed.

(** A completed comprehension found the three values of every selected
    qubit and stored their record under the name of the qubit; the other
    entries of the dictionary are untouched. *)
Lemma collect_fit_results_done fo d de qs acc r :
  collect_fit_results fo d de qs acc = Done r ->
  (forall q, q ∈ qs ->
     exists x y z, fo !! Qubit.name q = Some x /\ d !! Qubit.name q = Some y /\
       de !! Qubit.name q = Some z /\ r !! Qubit.name q = Some (fit_record x y z)) /\
  (forall k, k ∉ map Qubit.name qs -> r !! k = acc !! k).
Proof.
  revert acc. induction qs as [|q qs IH]; intros acc H; simpl in H.
  - injection H as <-. split; [|done]. intros q Hq. by apply elem_of_nil in Hq.
  - apply and_then_done in H as (x & Hx & H).
    apply and_then_done in H as (y & Hy & H).
    apply and_then_done in H as (z & Hz & H).
    apply loc_done in Hx, Hy, Hz.
    apply IH in H as [Hin Hout]. split.
    + intros q' Hq'. apply elem_of_cons in Hq' as [->|Hq']; [|by apply Hin].
      destruct (decide (Qubit.name q ∈ map Qubit.name qs)) as [Hdup|Hnew].
      * apply list_elem_of_fmap in Hdup as (q2 & Hname & Hq2).
        destruct (Hin q2 Hq2) as (x2 & y2 & z2 & Hx2 & Hy2 & Hz2 & Hr).
        rewrite <- Hname in Hx2, Hy2, Hz2, Hr. eauto 10.
      * exists x, y, z. rewrite (Hout _ Hnew), lookup_insert_eq. done.
    + intros k Hk. simpl in Hk. apply not_elem_of_cons in Hk as [Hk1 Hk2].
      rewrite (Hout k Hk2). by rewrite lookup_insert_ne.
Qed.

(** A selected qubit whose label is missing from the frequency array makes
    the comprehension raise a [KeyError] for the name of a selected qubit. *)
Lemma collect_fit_results_raises fo d de qs acc q :
  q ∈ qs -> fo !! Qubit.name q = None ->
  exists q', q' ∈ qs /\
    collect_fit_results fo d de qs acc = Raised (KeyError (Qubit.name q')).
Proof.
  revert acc. induction qs as [|q0 qs IH]; intros acc Hq Hmiss.
  - by apply elem_of_nil in Hq.
  - simpl. unfold loc at 1. destruct (fo !! Qubit.name q0) as [x|] eqn:Hx.
    + simpl. unfold loc at 1. destruct (d !! Qubit.name q0) as [y|];
        [|exists q0; split; [left|done]].
      simpl. unfold loc at 1. destruct (de !! Qubit.name q0) as [z|];
        [|exists q0; split; [left|done]].
      simpl. apply elem_of_cons in Hq as [->|Hq]; [congruence|].
      destruct (IH (<[Qubit.name q0 := fit_record x y z]> acc) Hq Hmiss)
        as (q' & Hq' & ->).
      exists q'. split; [by right|done].
    + exists q0. split; [left|done].
Qed.

Lemma sel_done (fit : Fit) label a : sel fit label = Done a -> fit !! label = Some a.
Proof. unfold sel. destruct (fit !! label); intros [= <-]; done. Qed.

Lemma where_positive_Some (a : DataArray) k x :
  where_positive a !! k = Some x <-> a !! k = Some x /\ PrimFloat.ltb 0 x = true.
Proof. unfold where_positive. by rewrite map_lookup_filter_Some. Qed.

Lemma where_positive_None (a : DataArray) k x :
  a !! k = Some x -> PrimFloat.ltb 0 x = false -> where_positive a !! k = None.
Proof.
  intros Ha Hx. destruct (where_positive a !! k) as [y|] eqn:Hy; [|done].
  apply where_positive_Some in Hy as [Hy1 Hy2]. congruence.
Qed.

(** Completed fit results hold, for every selected qubit, a record with the
    three keys, and the frequency the fit found for it is positive. *)
Lemma fit_results_of_done fit qs r :
  fit_results_of fit qs = Done r ->
  exists frequency, fit !! "f" = Some frequency /\
    forall q, q ∈ qs ->
      exists x record, frequency !! Qubit.name q = Some x /\
        PrimFloat.ltb 0 x = true /\
        r !! Qubit.name q = Some record /\
        record !! "freq_offset" = Some (1e9 * x)%float /\
        dom record = record_keys.
Proof.
  unfold fit_results_of. intros H.
  apply and_then_done in H as (frequency & Hf & H).
  apply and_then_done in H as (_ & _ & H).
  apply and_then_done in H as (decay & _ & H).
  apply and_then_done in H as (decay_res & _ & H).
  apply and_then_done in H as (d & _ & H).
  apply sel_done in Hf. exists frequency. split; [done|].
  apply collect_fit_results_done in H as [Hin _].
  intros q Hq. destruct (Hin q Hq) as (x & y & z & Hx & _ & _ & Hr).
  apply where_positive_Some in Hx as [Hx Hpos].
  exists x, (fit_record x y z).
  repeat split; first [done | apply fit_record_keys].
Qed.



(** C7: the fit-result record needs positive frequencies.  A run without
    [simulate] saves a node only if, in the exponential and in the Gaussian
    fit, the frequency of every selected qubit is strictly positive.  A
    selected qubit whose fitted frequency is not positive is dropped from
    the frequency array, and building the record then raises a [KeyError]
    for the name of a selected qubit. *)
Theorem fit_results_need_positive_frequencies (w : World) (p : Parameters.t)
    (fuel : nat) :
  (forall g o i n,
     run w p fuel = (g, o) ->
     Parameters.simulate p = false ->
     trace g !! i = Some (Saved n) ->
     exists qs,
       select_qubits (state_file w) (Parameters.qubits p) = Done qs /\
       forall m q, q ∈ qs ->
         exists frequency x,
           fit_oscillation_decay w m (hardware_dataset (result_handles w) qs p) !! "f"
           = Some frequency /\
           frequency !! Qubit.name q = Some x /\
           PrimFloat.ltb 0 x = true) /\
  (forall (fit : Fit) qs frequency decay decay_res q x,
     fit !! "f" = Some frequency ->
     fit !! "decay" = Some decay ->
     fit !! "decay_decay" = Some decay_res ->
     q ∈ qs ->
     frequency !! Qubit.name q = Some x ->
     PrimFloat.ltb 0 x = false ->
     where_positive frequency !! Qubit.name q = None /\
     exists q', q' ∈ qs /\
       fit_results_of fit qs = Raised (KeyError (Qubit.name q'))).
Proof.
  split.
  - intros g o i n H Hsim Hi.
    destruct (saved_node w p fuel g o i n H Hsim Hi)
      as (qs & det & j & c1 & c2 & r1 & r2 & Hq & _ & Hr1 & Hr2 & _).
    simpl in Hr1, Hr2. exists qs. split; [done|].
    intros m q Hq'.
    assert (Hm : exists r,
      fit_results_of
        (fit_oscillation_decay w m (hardware_dataset (result_handles w) qs p)) qs
      = Done r) by (destruct m; eauto).
    destruct Hm as (r & Hr).
    apply fit_results_of_done in Hr as (frequency & Hf & Hall).
    destruct (Hall q Hq') as (x & record & Hx & Hpos & _).
    exists frequency, x. done.
  - intros fit qs frequency decay decay_res q x Hf Hd Hdd Hq Hx Hneg.
    pose proof (where_positive_None frequency _ x Hx Hneg) as Hdrop.
    split; [done|]. unfold fit_results_of, sel. rewrite Hf, Hd, Hdd. simpl.
    by apply collect_fit_results_raises with (q := q).
Qed.

Lemma fit_results_need_positive_frequencies_witness :
  (exists qs,
     select_qubits (state_file Lab.world) (Parameters.qubits Lab.params) = Done qs /\
     forall m q, q ∈ qs ->
       exists frequency x,
         fit_oscillation_decay Lab.world m
           (hardware_dataset (result_handles Lab.world) qs Lab.params) !! "f"
         = Some frequency /\
         frequency !! Qubit.name q = Some x /\
         PrimFloat.ltb 0 x = true) /\
  (where_positive (<["qD1" := (-0x1p-9)%float]> ∅) !! Qubit.name Lab.qD1 = None /\
   exists q', q' ∈ [Lab.qD1] /\
     fit_results_of (Lab.table (-0x1p-9) 0x1p-13) [Lab.qD1]
     = Raised (KeyError (Qubit.name q'))).
Proof.
  split.
  - apply (proj1 (fit_results_need_positive_frequencies Lab.world Lab.params 5)
             (fst (run Lab.world Lab.params 5)) (snd (run Lab.world Lab.params 5))
             30%nat (node (fst (run Lab.world Lab.params 5)))).
    + apply surjective_pairing.
    + reflexivity.
    + vm_compute. reflexivity.
  - apply (proj2 (fit_results_need_positive_frequencies Lab.world Lab.params 5)
             (Lab.table (-0x1p-9) 0x1p-13) [Lab.qD1]
             (<["qD1" := (-0x1p-9)%float]> ∅) (<["qD1" := 0x1p-13%float]> ∅)
             (<["qD1" := 0x1p-40%float]> ∅) Lab.qD1 (-0x1p-9)%float).
    + vm_compute. reflexivity.
    + vm_compute. reflexivity.
    + vm_compute. reflexivity.
    + apply list_elem_of_In. left. reflexivity.
    + vm_compute. reflexivity.
    + reflexivity.
Defined.

(** In the laboratory: the exponential fit finds a negative frequency for
    the one selected qubit, and the run on hardware ends in the dictionary
    comprehension of line 233 with the [KeyError] of that qubit. *)
Example negative_frequency_ends_the_run :
  snd (run Lab.negative_world Lab.params 5) = Raised (KeyError "qD1") /\
  last (trace (fst (run Lab.negative_world Lab.params 5)))
  = Some (Returned (Site.oscillation_decay exponential)).
Proof. vm_compute. split; reflexivity. Qed.

(** ** The result stream of the QUA program *)

Lemma xor_stream_app d rs1 rs2 :
  xor_stream d (rs1 ++ rs2) = xor_stream d rs1 ++ xor_stream (last_readout d rs1) rs2.
Proof. revert d. induction rs1 as [|r rs1 IH]; intros d; simpl; [done|]. by rewrite IH. Qed.

Lemma last_readout_app d rs1 rs2 :
  last_readout d (rs1 ++ rs2) = last_readout (last_readout d rs1) rs2.
Proof. revert d. induction rs1 as [|r rs1 IH]; intros d; simpl; [done|]. by rewrite IH. Qed.

Lemma previous_readout_cons d r rs j :
  previous_readout d (r :: rs) (S j) = previous_readout r rs j.
Proof. by destruct j. Qed.

Lemma xor_stream_lookup d rs j :
  (j < length rs)%nat ->
  xor_stream d rs !! j = Some (Z.lxor (previous_readout d rs j) (rs !!! j)).
Proof.
  revert d j. induction rs as [|r rs IH]; intros d j Hj; simpl in Hj; [lia|].
  destruct j as [|j]; [done|].
  rewrite previous_readout_cons. simpl. apply IH. lia.
Qed.

Lemma last_readout_previous d rs :
  last_readout d rs = previous_readout d rs (length rs).
Proof.
  revert d. induction rs as [|r rs IH]; intros d; [done|].
  simpl length. rewrite previous_readout_cons. apply IH.
Qed.

Section Stream.
Variable dev : Device.
Variable prog : Program.
Variable nq : nat.

Lemma shot_sized i n k s : sized nq s -> sized nq (shot dev i n k s).
Proof.
  intros (H1 & H2 & H3 & H4). unfold sized, shot. simpl.
  by rewrite !length_insert.
Qed.

Lemma shot_at i n k s :
  sized nq s -> (i < nq)%nat ->
  init_state (shot dev i n k s) !!! i = readout dev i n k /\
  state_st (shot dev i n k s) !!! i
  = state_st s !!! i ++ [Z.lxor (init_state s !!! i) (readout dev i n k)].
Proof.
  intros (H1 & H2 & H3 & H4) Hi. unfold shot. simpl.
  rewrite !list_lookup_total_insert_eq by lia. done.
Qed.

Lemma shot_other i i' n k s :
  i' <> i ->
  init_state (shot dev i' n k s) !!! i = init_state s !!! i /\
  state_st (shot dev i' n k s) !!! i = state_st s !!! i.
Proof.
  intros Hne. unfold shot. simpl.
  by rewrite !list_lookup_total_insert_ne.
Qed.

(** The shots of one sweep of the idle times, for the qubit [i] itself. *)
Lemma shots_at i n ks s :
  sized nq s -> (i < nq)%nat ->
  sized nq (fold_left (fun s k => shot dev i n k s) ks s) /\
  init_state (fold_left (fun s k => shot dev i n k s) ks s) !!! i
  = last_readout (init_state s !!! i) (map (readout dev i n) ks) /\
  state_st (fold_left (fun s k => shot dev i n k s) ks s) !!! i
  = state_st s !!! i ++ xor_stream (init_state s !!! i) (map (readout dev i n) ks).
Proof.
  intros Hs Hi. revert s Hs. induction ks as [|k ks IH]; intros s Hs; simpl.
  - by rewrite app_nil_r.
  - destruct (shot_at i n k s Hs Hi) as [Hinit Hst].
    destruct (IH _ (shot_sized i n k s Hs)) as (Hs' & Hinit' & Hst').
    split; [done|]. rewrite Hinit', Hst', Hinit, Hst, <- app_assoc. done.
Qed.

(** The shots of another qubit leave the variables of [i] alone. *)
Lemma shots_other i i' n ks s :
  sized nq s -> i' <> i ->
  sized nq (fold_left (fun s k => shot dev i' n k s) ks s) /\
  init_state (fold_left (fun s k => shot dev i' n k s) ks s) !!! i = init_state s !!! i /\
  state_st (fold_left (fun s k => shot dev i' n k s) ks s) !!! i = state_st s !!! i.
Proof.
  intros Hs Hne. revert s Hs. induction ks as [|k ks IH]; intros s Hs; simpl; [done|].
  destruct (shot_other i i' n k s Hne) as [Hinit Hst].
  destruct (IH _ (shot_sized i' n k s Hs)) as (Hs' & Hinit' & Hst').
  split; [done|]. by rewrite Hinit', Hst', Hinit, Hst.
Qed.

Lemma averages_at i ns s :
  sized nq s -> (i < nq)%nat ->
  sized nq (fold_left (fun s n => average_iteration dev prog i n s) ns s) /\
  init_state (fold_left (fun s n => average_iteration dev prog i n s) ns s) !!! i
  = last_readout (init_state s !!! i) (readouts_of dev prog i ns) /\
  state_st (fold_left (fun s n => average_iteration dev prog i n s) ns s) !!! i
  = state_st s !!! i ++ xor_stream (init_state s !!! i) (readouts_of dev prog i ns).
Proof.
  intros Hs Hi. revert s Hs. induction ns as [|n ns IH]; intros s Hs; simpl.
  - by rewrite app_nil_r.
  - unfold average_iteration at 2 4 6, idle_loop.
    match goal with
    | |- context [fold_left (fun s k => shot dev i n k s) ?ks ?s0] =>
        destruct (shots_at i n ks s0) as (Hs1 & Hinit1 & Hst1); [done..|]
    end.
    destruct (IH _ Hs1) as (Hs' & Hinit' & Hst').
    split; [done|].
    rewrite Hinit', Hst', Hinit1, Hst1, xor_stream_app, last_readout_app, <- app_assoc.
    done.
Qed.

Lemma averages_other i i' ns s :
  sized nq s -> i' <> i ->
  sized nq (fold_left (fun s n => average_iteration dev prog i' n s) ns s) /\
  init_state (fold_left (fun s n => average_iteration dev prog i' n s) ns s) !!! i
  = init_state s !!! i /\
  state_st (fold_left (fun s n => average_iteration dev prog i' n s) ns s) !!! i
  = state_st s !!! i.
Proof.
  intros Hs Hne. revert s Hs. induction ns as [|n ns IH]; intros s Hs; simpl; [done|].
  unfold average_iteration at 2 4 6, idle_loop.
  match goal with
  | |- context [fold_left (fun s k => shot dev i' n k s) ?ks ?s0] =>
      destruct (shots_other i i' n ks s0) as (Hs1 & Hinit1 & Hst1); [done..|]
  end.
  destruct (IH _ Hs1) as (Hs' & Hinit' & Hst').
  split; [done|]. by rewrite Hinit', Hst', Hinit1, Hst1.
Qed.

(** The loops of the other qubits, whichever they are. *)
Lemma qubits_other i (js : list nat) s :
  sized nq s -> i ∉ js ->
  sized nq (fold_left (fun s i' => average_loop dev prog i' s) js s) /\
  init_state (fold_left (fun s i' => average_loop dev prog i' s) js s) !!! i
  = init_state s !!! i /\
  state_st (fold_left (fun s i' => average_loop dev prog i' s) js s) !!! i
  = state_st s !!! i.
Proof.
  intros Hs Hnot. revert s Hs. induction js as [|i' js IH]; intros s Hs; simpl; [done|].
  apply not_elem_of_cons in Hnot as [Hne Hnot].
  unfold average_loop at 2 4 6.
  destruct (averages_other i i' (seq 0 (Z.to_nat (prog_n_avg prog))) s Hs)
    as (Hs1 & Hinit1 & Hst1); [done|].
  destruct (IH Hnot _ Hs1) as (Hs' & Hinit' & Hst').
  split; [done|]. by rewrite Hinit', Hst', Hinit1, Hst1.
Qed.
End Stream.

Lemma readouts_lookup (f : nat -> nat -> Z) (L N a n k : nat) :
  (n < N)%nat -> (k < L)%nat ->
  flat_map (fun n => map (fun k => f n k) (seq 0 L)) (seq a N) !! (n * L + k)%nat
  = Some (f (a + n)%nat k).
Proof.
  revert a n. induction N as [|N IH]; intros a n Hn Hk; [lia|].
  simpl. destruct n as [|n].
  - rewrite lookup_app_l by (rewrite length_map, length_seq; lia).
    simpl. rewrite Nat.add_0_r.
    change (map (fun k => f a k) (seq 0 L)) with ((fun k => f a k) <$> seq 0 L).
    rewrite list_lookup_fmap, lookup_seq_lt by lia. done.
  - rewrite lookup_app_r by (rewrite length_map, length_seq; lia).
    rewrite length_map, length_seq.
    replace (S n * L + k - L)%nat with (n * L + k)%nat by lia.
    rewrite IH by lia. f_equal. f_equal. lia.
Qed.

Lemma declarations_sized dev nq : sized nq (declarations dev nq).
Proof.
  unfold sized, declarations. simpl.
  by rewrite !length_map, !length_seq, length_replicate.
Qed.

Lemma average_loop_at dev prog nq i s :
  sized nq s -> (i < nq)%nat ->
  sized nq (average_loop dev prog i s) /\
  init_state (average_loop dev prog i s) !!! i
  = last_readout (init_state s !!! i) (readouts dev prog i) /\
  state_st (average_loop dev prog i s) !!! i
  = state_st s !!! i ++ xor_stream (init_state s !!! i) (readouts dev prog i).
Proof. intros Hs Hi. unfold average_loop. by apply averages_at. Qed.

(** The stream and the stored readout of a qubit when the program ends. *)
Lemma ramsey_stream dev prog i :
  (i < length (prog_qubits prog))%nat ->
  init_state (ramsey dev prog) !!! i
  = last_readout (declared dev "init_state" i) (readouts dev prog i) /\
  state_st (ramsey dev prog) !!! i
  = xor_stream (declared dev "init_state" i) (readouts dev prog i).
Proof.
  intros Hi. unfold ramsey. set (nq := length (prog_qubits prog)) in *.
  replace (seq 0 nq) with (seq 0 i ++ i :: seq (S i) (nq - S i)).
  2:{ change (i :: seq (S i) (nq - S i)) with (seq i (S (nq - S i))).
      rewrite <- seq_app. f_equal. lia. }
  rewrite fold_left_app. cbn [fold_left].
  pose proof (declarations_sized dev nq) as Hs0.
  destruct (qubits_other dev prog nq i (seq 0 i) _ Hs0) as (Hs1 & Hinit1 & Hst1).
  { rewrite elem_of_seq. lia. }
  destruct (average_loop_at dev prog nq i _ Hs1 Hi) as (Hs2 & Hinit2 & Hst2).
  destruct (qubits_other dev prog nq i (seq (S i) (nq - S i)) _ Hs2)
    as (Hs3 & Hinit3 & Hst3).
  { rewrite elem_of_seq. lia. }
  rewrite Hinit3, Hst3, Hinit2, Hst2, Hinit1, Hst1.
  unfold declarations. simpl.
  change (map (declared dev "init_state") (seq 0 nq))
    with (declared dev "init_state" <$> seq 0 nq).
  rewrite (list_lookup_total_fmap (declared dev "init_state") (seq 0 nq) i)
    by (rewrite length_seq; lia).
  rewrite lookup_total_seq_lt by lia.
  rewrite lookup_total_replicate_2 by lia. done.
Qed.

(** C6: what the program saves to the stream of a qubit is never the raw
    readout.  For the qubit of index [i], averaging iteration [n] and the
    [k]-th idle time, the value saved for that shot is the exclusive or of
    the readout of the shot with the readout of the shot just before it for
    the same qubit; before the first shot the variable holds what its
    declaration (line 103, before the loops) left in it, and after every
    shot it holds the readout of that shot, so that when the program ends
    it holds the last readout. *)
Theorem saved_state_is_xor_with_previous (dev : Device) (prog : Program) (i n k : nat) :
  (i < length (prog_qubits prog))%nat ->
  (n < Z.to_nat (prog_n_avg prog))%nat ->
  (k < length (prog_idle_times prog))%nat ->
  readouts dev prog i !! (n * length (prog_idle_times prog) + k)%nat
  = Some (readout dev i n k) /\
  (state_st (ramsey dev prog) !!! i) !! (n * length (prog_idle_times prog) + k)%nat
  = Some (Z.lxor
            (previous_readout (declared dev "init_state" i) (readouts dev prog i)
               (n * length (prog_idle_times prog) + k))
            (readout dev i n k)) /\
  length (state_st (ramsey dev prog) !!! i) = length (readouts dev prog i) /\
  init_state (ramsey dev prog) !!! i
  = previous_readout (declared dev "init_state" i) (readouts dev prog i)
      (length (readouts dev prog i)).
Proof.
  intros Hi Hn Hk.
  destruct (ramsey_stream dev prog i Hi) as [Hinit Hst].
  assert (Hr : readouts dev prog i !! (n * length (prog_idle_times prog) + k)%nat
               = Some (readout dev i n k)).
  { unfold readouts. by rewrite readouts_lookup. }
  split; [done|]. rewrite Hst, Hinit. split; [|split].
  - rewrite xor_stream_lookup by (by apply lookup_lt_Some in Hr).
    by rewrite (list_lookup_total_correct _ _ _ Hr).
  - clear. generalize (declared dev "init_state" i).
    induction (readouts dev prog i) as [|r rs IH]; intros d; simpl; [done|].
    by rewrite IH.
  - apply last_readout_previous.
Qed.

Lemma saved_state_is_xor_with_previous_witness :
  readouts pattern_device small_program 1 !! (1 * 3 + 2)%nat
  = Some (readout pattern_device 1 1 2) /\
  (state_st (ramsey pattern_device small_program) !!! 1%nat) !! (1 * 3 + 2)%nat
  = Some (Z.lxor
            (previous_readout (declared pattern_device "init_state" 1)
               (readouts pattern_device small_program 1) (1 * 3 + 2))
            (readout pattern_device 1 1 2)) /\
  length (state_st (ramsey pattern_device small_program) !!! 1%nat)
  = length (readouts pattern_device small_program 1) /\
  init_state (ramsey pattern_device small_program) !!! 1%nat
  = previous_readout (declared pattern_device "init_state" 1)
      (readouts pattern_device small_program 1)
      (length (readouts pattern_device small_program 1)).
Proof.
  apply (saved_state_is_xor_with_previous pattern_device small_program 1 1 2).
  - simpl. lia.
  - simpl. lia.
  - simpl. lia.
Defined.

(** ** The time coordinate *)





(** ** Qubit selection *)

Lemma lookup_qubits_done m names qs :
  lookup_qubits m names = Done qs <->
  Forall2 (fun name q => Quam.qubits m !! name = Some q) names qs.
Proof.
  revert qs. induction names as [|name names IH]; intros qs; simpl.
  - split; [intros [= <-]; constructor | intros H; by inversion H].
  - unfold lookup_qubit. destruct (Quam.qubits m !! name) as [q|] eqn:Hq; simpl.
    + destruct (lookup_qubits m names) as [qs'| |] eqn:Hrest; simpl.
      * split.
        -- intros [= <-]. constructor; [done|]. by apply IH.
        -- intros H. inversion H as [|? q' ? qs'' Hq' Hqs]; subst.
           apply IH in Hqs. congruence.
      * split; [discriminate|]. intros H.
        inversion H as [|? q' ? qs'' Hq' Hqs]; subst. apply IH in Hqs. discriminate.
      * split; [discriminate|]. intros H.
        inversion H as [|? q' ? qs'' Hq' Hqs]; subst. apply IH in Hqs. discriminate.
    + split; [discriminate|]. intros H.
      inversion H as [|? q' ? qs'' Hq' Hqs]; subst. congruence.
Qed.

(** A missing name makes the comprehension raise a [KeyError] for the first
    missing name of the list. *)
Lemma lookup_qubits_raises m names name :
  name ∈ names -> Quam.qubits m !! name = None ->
  exists before missing after,
    names = before ++ missing :: after /\
    Forall (fun x => is_Some (Quam.qubits m !! x)) before /\
    Quam.qubits m !! missing = None /\
    lookup_qubits m names = Raised (KeyError missing).
Proof.
  induction names as [|x names IH]; intros Hin Hmiss.
  - by apply elem_of_nil in Hin.
  - simpl. unfold lookup_qubit. destruct (Quam.qubits m !! x) as [q|] eqn:Hx.
    + apply elem_of_cons in Hin as [->|Hin]; [congruence|].
      destruct (IH Hin Hmiss) as (before & missing & after & -> & Hb & Hm & ->).
      exists (x :: before), missing, after. repeat split; try done.
      constructor; [by rewrite Hx|done].
    + exists [], x, names. repeat split; try done.
Qed.

Section Selection.
Variable w : World.

(** When the qubits cannot be selected the first cell raises, and it
    raises the selection's own exception unless a library call raised
    before. *)
Lemma initialise_raises p g e0 :
  select_qubits (state_file w) (Parameters.qubits p) = Raised e0 ->
  exists g' e,
    Initialize_QuAM_and_QOP w p g = (g', Raised e) /\
    ((forall s, initialise_site s = true -> raises w s = None) -> e = e0).
Proof.
  intros Hsel. unfold Initialize_QuAM_and_QOP, bind, call, lift, modify, ret. rewrite Hsel.
  destruct (raises w Site.QualibrationNode) eqn:H1.
  { eexists _, _. split; [reflexivity|]. intros Hok. rewrite Hok in H1; done. }
  destruct (raises w Site.get_node_id) eqn:H2.
  { eexists _, _. split; [reflexivity|]. intros Hok. rewrite Hok in H2; done. }
  destruct (raises w Site.Quam_load) eqn:H3.
  { eexists _, _. split; [reflexivity|]. intros Hok. rewrite Hok in H3; done. }
  destruct (raises w Site.generate_config) eqn:H4.
  { eexists _, _. split; [reflexivity|]. intros Hok. rewrite Hok in H4; done. }
  destruct (Parameters.load_data_id p).
  { eexists _, _. split; [reflexivity|]. done. }
  destruct (raises w Site.connect) eqn:H5.
  { eexists _, _. split; [reflexivity|]. intros Hok. rewrite Hok in H5; done. }
  eexists _, _. split; [reflexivity|]. done.
Qed.
End Selection.

(** C10: the selection of the qubits.  When the parameter is None or the
    empty string the active qubits of the machine are used.  Otherwise the
    listed names are looked up in the qubit dictionary of the machine, in
    the order of the list.  A listed name that the dictionary does not hold
    makes the script end with an exception before the program is built:
    the trace shows calls of the first cell only, and unless one of them
    raised, the exception is the [KeyError] of the first missing name. *)
Theorem qubit_selection (w : World) (p : Parameters.t) (fuel : nat) :
  (Parameters.qubits p = QubitsNone \/ Parameters.qubits p = QubitsStr "" ->
   select_qubits (state_file w) (Parameters.qubits p)
   = Done (Quam.active_qubits (state_file w))) /\
  (forall names qs,
     Parameters.qubits p = QubitsList names ->
     (select_qubits (state_file w) (Parameters.qubits p) = Done qs <->
      Forall2 (fun name q => Quam.qubits (state_file w) !! name = Some q) names qs)) /\
  (forall names name g o,
     Parameters.qubits p = QubitsList names ->
     name ∈ names ->
     Quam.qubits (state_file w) !! name = None ->
     run w p fuel = (g, o) ->
     within initialise_site (trace g) /\
     touches is_program (trace g) = false /\
     exists e before missing after,
       o = Raised e /\
       names = before ++ missing :: after /\
       Forall (fun x => is_Some (Quam.qubits (state_file w) !! x)) before /\
       Quam.qubits (state_file w) !! missing = None /\
       ((forall s, initialise_site s = true -> raises w s = None) ->
        e = KeyError missing)).
Proof.
  split; [|split].
  - intros [-> | ->]; reflexivity.
  - intros names qs ->. simpl. apply lookup_qubits_done.
  - intros names name g o Hp Hin Hmiss H.
    destruct (lookup_qubits_raises _ _ _ Hin Hmiss)
      as (before & missing & after & Hn & Hb & Hm & Hraise).
    assert (Hsel : select_qubits (state_file w) (Parameters.qubits p)
                   = Raised (KeyError missing)) by (by rewrite Hp).
    destruct (initialise_raises w p (start p) _ Hsel) as (g' & e & Hi & He).
    unfold run, script, bind in H. rewrite Hi in H. injection H as <- <-.
    assert (Hem : emits initialise_site (Initialize_QuAM_and_QOP w p)).
    { unfold Initialize_QuAM_and_QOP. emits_go. }
    apply Hem in Hi as (tr & Ht & Hw & _). simpl in Ht. subst tr.
    split; [done|]. split.
    { apply (touches_within _ _ _ Hw). by intros []. }
    exists e, before, missing, after. done.
Qed.

Lemma qubit_selection_witness :
  (select_qubits (state_file Lab.world)
     (Parameters.qubits (Lab.with_qubits QubitsNone Lab.params))
   = Done (Quam.active_qubits (state_file Lab.world))) /\
  (select_qubits (state_file Lab.world) (Parameters.qubits Lab.params) = Done [Lab.qD1]) /\
  (within initialise_site (trace (fst (run Lab.world unknown_qubit 5))) /\
   touches is_program (trace (fst (run Lab.world unknown_qubit 5))) = false /\
   exists e before missing after,
     snd (run Lab.world unknown_qubit 5) = Raised e /\
     ["qD1"; "qX"] = before ++ missing :: after /\
     Forall (fun x => is_Some (Quam.qubits (state_file Lab.world) !! x)) before /\
     Quam.qubits (state_file Lab.world) !! missing = None /\
     ((forall s, initialise_site s = true -> raises Lab.world s = None) ->
      e = KeyError missing)).
Proof.
  split; [|split].
  - apply (proj1 (qubit_selection Lab.world (Lab.with_qubits QubitsNone Lab.params) 5)).
    left. reflexivity.
  - apply (proj1 (proj2 (qubit_selection Lab.world Lab.params 5)) ["qD1"] [Lab.qD1]).
    + reflexivity.
    + constructor; [vm_compute; reflexivity | constructor].
  - apply (proj2 (proj2 (qubit_selection Lab.world unknown_qubit 5))
             ["qD1"; "qX"] "qX").
    + reflexivity.
    + apply list_elem_of_In. right. left. reflexivity.
    + vm_compute. reflexivity.
    + apply surjective_pairing.
Defined.

(** ** Runs on loaded data never reach the hardware *)

Ltac run_cases w :=
  repeat first
    [ match goal with
      | |- context [raises w ?s] => destruct (raises w s); simpl
      end
    | match goal with
      | |- context [match ?x with Done _ => _ | Raised _ => _ | Unfinished => _ end] =>
          destruct x; simpl
      | |- context [match ?x with Some _ => _ | None => _ end] =>
          destruct x; simpl
      end ].

Lemma loaded_run_offline w p fuel g o id :
  run w p fuel = (g, o) ->
  Parameters.load_data_id p = Some id ->
  within (fun s => negb (hardware_site s)) (trace g).
Proof.
  intros H Hid. revert H.
  unfold run, script, Initialize_QuAM_and_QOP, QUA_program, Simulate_or_execute,
    fetch_and_analyse, simulate_branch, Data_fetching_and_dataset_creation,
    Data_analysis, Save_results.
  cbv zeta. rewrite Hid.
  unfold bind, call, node_save, lift, modify, read, get, ret. simpl.
  destruct (Parameters.simulate p); simpl.
  - run_cases w; intros [= <- <-]; simpl; repeat constructor.
  - run_cases w; intros [= <- <-]; simpl; repeat constructor.
Qed.

(** X2: With [load_data_id] set the script opens no connection (line 68), and
    nothing it does afterwards talks to the hardware or to the simulator:
    no connection, no simulation, no session, no job, no polling and no
    fetching of results, however the run ends. *)
Theorem loaded_data_never_reaches_the_hardware (w : World) (p : Parameters.t)
    (fuel : nat) (g : Globals) (o : Outcome unit) (id : Z) :
  run w p fuel = (g, o) ->
  Parameters.load_data_id p = Some id ->
  within (fun s => negb (hardware_site s)) (trace g) /\
  touches hardware_site (trace g) = false.
Proof.
  intros H Hid. pose proof (loaded_run_offline w p fuel g o id H Hid) as Hw.
  split; [done|].
  apply (touches_within _ _ _ Hw). intros s Hs. by destruct (hardware_site s).
Qed.

Lemma loaded_data_never_reaches_the_hardware_witness :
  within (fun s => negb (hardware_site s))
    (trace (fst (run Lab.archive_world (Lab.with_load_data_id 7 Lab.params) 5))) /\
  touches hardware_site
    (trace (fst (run Lab.archive_world (Lab.with_load_data_id 7 Lab.params) 5)))
  = false.
Proof.
  apply (loaded_data_never_reaches_the_hardware Lab.archive_world
           (Lab.with_load_data_id 7 Lab.params) 5
           (fst (run Lab.archive_world (Lab.with_load_data_id 7 Lab.params) 5))
           (snd (run Lab.archive_world (Lab.with_load_data_id 7 Lab.params) 5)) 7).
  - apply surjective_pairing.
  - reflexivity.
Defined.

(** X3: A simulation asked for together with [load_data_id] never completes
    and saves nothing: [qmm] is bound only when no data are loaded (lines
    68-69) and the simulation reads it (line 150).  When no library call
    raises and the parameters are sound, the run ends there, with a
    [NameError], right after the simulation configuration was built. *)
Theorem simulation_of_loaded_data_fails (w : World) (p : Parameters.t)
    (fuel : nat) (g : Globals) (o : Outcome unit) (id : Z) :
  run w p fuel = (g, o) ->
  Parameters.simulate p = true ->
  Parameters.load_data_id p = Some id ->
  o <> Done tt /\
  (forall i n, trace g !! i <> Some (Saved n)) /\
  ((forall s, raises w s = None) ->
   forall qs det,
     select_qubits (state_file w) (Parameters.qubits p) = Done qs ->
     detuning p = Done det ->
     o = Raised (NameError "qmm") /\
     trace g = offline_prelude ++ [Returned Site.SimulationConfig]).
Proof.
  intros H Hsim Hid.
  assert (Hno : o <> Done tt).
  { intros ->. pose proof (loaded_run_offline w p fuel g _ id H Hid) as Hw.
    apply run_done_sim in H as [_ Ht]; [|done]. rewrite Ht in Hw.
    apply (Forall_lookup_1 _ _ 4%nat (Returned Site.connect)) in Hw; [|done].
    discriminate. }
  split; [done|]. split.
  - intros i n Hi. by destruct (saved_last w p fuel g o i n H Hi) as (-> & _).
  - intros Hok qs det Hq Hd. revert H.
    unfold run, script, Initialize_QuAM_and_QOP, QUA_program, Simulate_or_execute,
      simulate_branch.
    cbv zeta. rewrite Hsim, Hid, Hq, Hd.
    unfold bind, call, lift, modify, read, ret. rewrite !Hok. simpl.
    by intros [= <- <-].
Qed.

Lemma simulation_of_loaded_data_fails_witness :
  snd (run Lab.archive_world
         (Lab.with_simulate (Lab.with_load_data_id 7 Lab.params)) 5) <> Done tt /\
  (forall i n,
     trace (fst (run Lab.archive_world
                   (Lab.with_simulate (Lab.with_load_data_id 7 Lab.params)) 5)) !! i
     <> Some (Saved n)) /\
  snd (run Lab.archive_world
         (Lab.with_simulate (Lab.with_load_data_id 7 Lab.params)) 5)
  = Raised (NameError "qmm").
Proof.
  pose proof (simulation_of_loaded_data_fails Lab.archive_world
           (Lab.with_simulate (Lab.with_load_data_id 7 Lab.params)) 5
           (fst (run Lab.archive_world
                   (Lab.with_simulate (Lab.with_load_data_id 7 Lab.params)) 5))
           (snd (run Lab.archive_world
                   (Lab.with_simulate (Lab.with_load_data_id 7 Lab.params)) 5)) 7
           (surjective_pairing _) eq_refl eq_refl) as (H1 & H2 & H3).
  split; [exact H1|]. split; [exact H2|].
  exact (proj1 (H3 (fun _ => eq_refl) [Lab.qD1] 5000000 eq_refl eq_refl)).
Defined.

(** ** The node of a simulation *)

(** X4: A simulation that saves has no [load_data_id]; the node it saves holds
    the figure of the simulated samples and nothing else, no dataset, no
    fit results, no initial parameters and no outcome, with the machine as
    it was loaded; and the save is the eleventh and last event. *)
Theorem simulation_saves_the_samples_figure_only (w : World) (p : Parameters.t)
    (fuel : nat) (g : Globals) (o : Outcome unit) (i : nat) (n : Node) :
  run w p fuel = (g, o) ->
  Parameters.simulate p = true ->
  trace g !! i = Some (Saved n) ->
  Parameters.load_data_id p = None /\
  i = 10%nat /\
  dom (results n) = {["figure"]} /\
  results n !! "figure" = Some (VFigure SamplesFigure) /\
  outcomes n = ∅ /\
  machine n = Some (state_file w) /\
  parameters n = p.
Proof.
  intros H Hsim Hi.
  destruct (saved_last w p fuel g o i n H Hi) as (-> & Hl & ->).
  split.
  { destruct (Parameters.load_data_id p) as [id|] eqn:Hid; [|done].
    pose proof (loaded_run_offline w p fuel g _ id H Hid) as Hw.
    apply run_done_sim in H as [_ Ht]; [|done]. rewrite Ht in Hw.
    apply (Forall_lookup_1 _ _ 4%nat (Returned Site.connect)) in Hw; [|done].
    discriminate. }
  apply run_done_sim in H as [Hn Ht]; [|done].
  rewrite Ht in Hl. simpl in Hl. rewrite Hn. unfold simulation_node; simpl.
  split; [lia|]. split; [|done].
  by rewrite dom_insert_L, dom_empty_L, union_empty_r_L.
Qed.

Lemma simulation_saves_the_samples_figure_only_witness :
  dom (results (simulation_node Lab.world (Lab.with_simulate Lab.params)))
  = {["figure"]}.
Proof.
  apply (simulation_saves_the_samples_figure_only Lab.world
           (Lab.with_simulate Lab.params) 5
           (fst (run Lab.world (Lab.with_simulate Lab.params) 5))
           (snd (run Lab.world (Lab.with_simulate Lab.params) 5)) 10
           (simulation_node Lab.world (Lab.with_simulate Lab.params))).
  - apply surjective_pairing.
  - reflexivity.
  - reflexivity.
Defined.

(** ** One save, at the end *)

(** X5: Whatever the parameters and whatever the library calls do, the script
    saves the node at most once; a save is the last thing a run does, the
    run then ends normally, and what was saved is the node as the run
    leaves it.  A run that raises, or that is still polling, has saved
    nothing. *)
Theorem node_is_saved_once_at_the_end (w : World) (p : Parameters.t)
    (fuel : nat) (g : Globals) (o : Outcome unit) (i : nat) (n : Node) :
  run w p fuel = (g, o) ->
  trace g !! i = Some (Saved n) ->
  o = Done tt /\
  length (trace g) = S i /\
  n = node g /\
  forall k n', trace g !! k = Some (Saved n') -> k = i /\ n' = n.
Proof.
  intros H Hi. destruct (saved_last w p fuel g o i n H Hi) as (Ho & Hl & Hn).
  split; [exact Ho|]. split; [exact Hl|]. split; [exact Hn|].
  intros k n' Hk.
  destruct (saved_last w p fuel g o k n' H Hk) as (_ & Hl' & Hn').
  split; [lia | congruence].
Qed.

Lemma node_is_saved_once_at_the_end_witness :
  snd (run Lab.world Lab.params 5) = Done tt /\
  length (trace (fst (run Lab.world Lab.params 5))) = 31%nat.
Proof.
  assert (Hi : trace (fst (run Lab.world Lab.params 5)) !! 30%nat
               = Some (Saved (node (fst (run Lab.world Lab.params 5)))))
    by (vm_compute; reflexivity).
  destruct (node_is_saved_once_at_the_end Lab.world Lab.params 5
              (fst (run Lab.world Lab.params 5)) (snd (run Lab.world Lab.params 5))
              30 (node (fst (run Lab.world Lab.params 5)))
              (surjective_pairing _) Hi) as (H1 & H2 & _).
  split; [exact H1 | exact H2].
Defined.

(** ** A job that keeps processing *)

(** As long as [is_processing] answers true the loop goes round: each of
    the [fuel] queries is followed by a fetch and a progress bar. *)
Lemma poll_busy w fuel k g :
  (forall s, raises w s = None) ->
  (forall i, (i < fuel)%nat -> processing w (k + i) = true) ->
  poll w fuel k g = (add_trace (poll_rounds k fuel) g, Unfinished).
Proof.
  intros Hok. revert k g.
  induction fuel as [|fuel IH]; intros k g Hbusy.
  - simpl. unfold lift, add_trace, poll_rounds. simpl. rewrite app_nil_r.
    by destruct g.
  - simpl. unfold bind at 1, is_processing. rewrite Hok.
    pose proof (Hbusy 0%nat ltac:(lia)) as H0.
    rewrite Nat.add_0_r in H0. rewrite H0.
    rewrite (bind_eq _ _ _ _ _ (call_eq w _ _ (Hok _))).
    rewrite (bind_eq _ _ _ _ _ (call_eq w _ _ (Hok _))).
    rewrite (IH (S k)).
    + unfold log. rewrite !add_trace_add_trace. reflexivity.
    + intros i Hi. replace (S k + i)%nat with (k + S i)%nat by lia.
      apply Hbusy. lia.
Qed.

(** X6: The polling loop (lines 171-173) has no bound of its own; [timeout]
    goes to [qm_session] only.  On hardware, when no library call raises,
    a job that answers "processing" to the first [fuel] queries keeps the
    script in the loop for all of them: after the prelude the trace holds
    exactly [fuel] rounds of query, fetch and progress bar, the session
    block has not been left, and nothing has been stored in the node. *)
Theorem busy_job_is_polled_without_end (w : World) (p : Parameters.t)
    (fuel : nat) (qs : list Qubit.t) (det : Z) :
  (forall s, raises w s = None) ->
  Parameters.simulate p = false ->
  Parameters.load_data_id p = None ->
  select_qubits (state_file w) (Parameters.qubits p) = Done qs ->
  detuning p = Done det ->
  (forall i, (i < fuel)%nat -> processing w i = true) ->
  exists g,
    run w p fuel = (g, Unfinished) /\
    trace g = execute_prelude ++ poll_rounds 0 fuel /\
    length (trace g) = (10 + 3 * fuel)%nat /\
    results (node g) = ∅ /\
    date_time g = Some (now w).
Proof.
  intros Hok Hsim Hid Hsel Hdet Hbusy.
  unfold run, script, Initialize_QuAM_and_QOP, QUA_program, Simulate_or_execute,
    fetch_and_analyse, execute_branch, with_qm_session.
  cbv zeta. rewrite Hsim, Hid, Hsel, Hdet.
  unfold bind, call, node_save, lift, modify, read, get, ret.
  rewrite !Hok. simpl.
  rewrite (poll_busy w fuel 0) by done. simpl.
  eexists. split; [reflexivity|]. simpl.
  split; [reflexivity|]. split; [|done].
  rewrite poll_rounds_length. lia.
Qed.

Lemma busy_job_is_polled_without_end_witness :
  exists g,
    run busy_world Lab.params 7 = (g, Unfinished) /\
    trace g = execute_prelude ++ poll_rounds 0 7 /\
    length (trace g) = (10 + 3 * 7)%nat /\
    results (node g) = ∅ /\
    date_time g = Some (now busy_world).
Proof.
  apply (busy_job_is_polled_without_end busy_world Lab.params 7 [Lab.qD1] 5000000).
  - reflexivity.
  - reflexivity.
  - reflexivity.
  - vm_compute. reflexivity.
  - vm_compute. reflexivity.
  - reflexivity.
Defined.

(** ** The swept idle times *)



(** A sweep asked for from 17 ns is labelled from 16 ns. *)
Example idle_times_of_an_odd_minimum :
  idle_times (with_wait_times 17 30 Lab.params) = [4; 5; 6; 7] /\
  ds_time (hardware_dataset [] [] (with_wait_times 17 30 Lab.params))
  = [16; 20; 24; 28].
Proof. vm_compute. split; reflexivity. Qed.

(** ** The fit results, key by key *)

Lemma collect_fit_results_dom fo d de qs acc r :
  collect_fit_results fo d de qs acc = Done r ->
  dom r = names_of qs ∪ dom acc.
Proof.
  revert acc. induction qs as [|q qs IH]; intros acc H; simpl in H.
  - injection H as <-. unfold names_of. simpl. by rewrite union_empty_l_L.
  - apply and_then_done in H as (x & _ & H).
    apply and_then_done in H as (y & _ & H).
    apply and_then_done in H as (z & _ & H).
    apply IH in H. rewrite H, dom_insert_L. unfold names_of. simpl.
    rewrite (union_comm_L {[Qubit.name q]} (list_to_set (map Qubit.name qs))).
    by rewrite <- union_assoc_L.
Qed.

(** The comprehension completes when every selected qubit has its three
    values. *)
Lemma collect_fit_results_total fo d de qs acc :
  (forall q, q ∈ qs ->
     is_Some (fo !! Qubit.name q) /\ is_Some (d !! Qubit.name q) /\
     is_Some (de !! Qubit.name q)) ->
  exists r, collect_fit_results fo d de qs acc = Done r.
Proof.
  revert acc. induction qs as [|q qs IH]; intros acc Hall; simpl.
  - by exists acc.
  - destruct (Hall q) as ([x Hx] & [y Hy] & [z Hz]); [left|].
    unfold loc. rewrite Hx, Hy, Hz. simpl.
    apply IH. intros q' Hq'. apply Hall. by right.
Qed.

(** The arrays of line 229 and 230, label by label. *)
Lemma decay_lookup (dec : DataArray) k :
  scale 1e-9 (reciprocal dec) !! k
  = (fun d => (1e-9 * (1 / d))%float) <$> dec !! k.
Proof.
  unfold scale, reciprocal. rewrite !lookup_fmap. by destruct (dec !! k).
Qed.

Lemma decay_error_lookup (dec dres : DataArray) k :
  scale 1e-9 (mul_array (reciprocal dec) (div_array (sqrt_array dres) dec)) !! k
  = match dec !! k, dres !! k with
    | Some d, Some dd => Some (1e-9 * ((1 / d) * (PrimFloat.sqrt dd / d)))%float
    | _, _ => None
    end.
Proof.
  unfold scale, mul_array, div_array, reciprocal, sqrt_array.
  rewrite lookup_fmap, !lookup_intersection_with, !lookup_fmap.
  by destruct (dec !! k), (dres !! k).
Qed.

Lemma fit_results_of_unfold fit qs r :
  fit_results_of fit qs = Done r ->
  exists frequency dec dres,
    fit !! "f" = Some frequency /\ fit !! "decay" = Some dec /\
    fit !! "decay_decay" = Some dres /\
    collect_fit_results (where_positive frequency)
      (scale 1e-9 (reciprocal dec))
      (scale 1e-9 (mul_array (reciprocal dec) (div_array (sqrt_array dres) dec)))
      qs ∅ = Done r.
Proof.
  unfold fit_results_of. intros H.
  apply and_then_done in H as (frequency & Hf & H).
  apply and_then_done in H as (d0 & Hd0 & H).
  apply and_then_done in H as (dec & Hd & H).
  apply and_then_done in H as (dres & Hdd & H).
  apply and_then_done in H as (d & Hd' & H).
  apply sel_done in Hf, Hd0, Hd, Hdd, Hd'.
  assert (d = dec) as -> by congruence.
  exists frequency, dec, dres. done.
Qed.

(** X8: Lines 206-240, the numbers: for every selected qubit the record holds
    the fitted frequency times 1e9 under "freq_offset", the reciprocal of
    the fitted decay rate times 1e-9 under "decay", and under "decay_error"
    that reciprocal times the square root of the variance of the decay rate
    over the decay rate, times 1e-9.  The frequency is positive; the decay
    rate and its variance are taken as the fit gives them. *)
Theorem fit_results_values (fit : Fit) (qs : list Qubit.t)
    (r : gmap string (gmap string float)) (q : Qubit.t) :
  fit_results_of fit qs = Done r ->
  q ∈ qs ->
  exists f d dd,
    fit_value fit "f" (Qubit.name q) = Some f /\
    PrimFloat.ltb 0 f = true /\
    fit_value fit "decay" (Qubit.name q) = Some d /\
    fit_value fit "decay_decay" (Qubit.name q) = Some dd /\
    fitted_value (Done r) (Qubit.name q) "freq_offset" = Some (1e9 * f)%float /\
    fitted_value (Done r) (Qubit.name q) "decay" = Some (1e-9 * (1 / d))%float /\
    fitted_value (Done r) (Qubit.name q) "decay_error"
    = Some (1e-9 * ((1 / d) * (PrimFloat.sqrt dd / d)))%float.
Proof.
  intros H Hq.
  apply fit_results_of_unfold in H as (frequency & dec & dres & Hf & Hd & Hdd & H).
  apply collect_fit_results_done in H as [Hin _].
  destruct (Hin q Hq) as (x & y & z & Hx & Hy & Hz & Hr).
  apply where_positive_Some in Hx as [Hx Hpos].
  rewrite decay_lookup in Hy. rewrite decay_error_lookup in Hz.
  destruct (dec !! Qubit.name q) as [d|] eqn:Hdq; [|discriminate].
  destruct (dres !! Qubit.name q) as [dd|] eqn:Hddq; [|discriminate].
  simpl in Hy. injection Hy as <-. injection Hz as <-.
  exists x, d, dd. unfold fit_value, fitted_value. rewrite Hf, Hd, Hdd, Hr.
  repeat split; try done.
Qed.

Lemma fit_results_values_witness :
  exists r f d dd,
    fit_results_of (Lab.fits gaussian Lab.dataset) [Lab.qD1] = Done r /\
    fit_value (Lab.fits gaussian Lab.dataset) "f" "qD1" = Some f /\
    PrimFloat.ltb 0 f = true /\
    fit_value (Lab.fits gaussian Lab.dataset) "decay" "qD1" = Some d /\
    fit_value (Lab.fits gaussian Lab.dataset) "decay_decay" "qD1" = Some dd /\
    fitted_value (Done r) "qD1" "freq_offset" = Some (1e9 * f)%float /\
    fitted_value (Done r) "qD1" "decay" = Some (1e-9 * (1 / d))%float /\
    fitted_value (Done r) "qD1" "decay_error"
    = Some (1e-9 * ((1 / d) * (PrimFloat.sqrt dd / d)))%float.
Proof.
  assert (Hr : fit_results_of (Lab.fits gaussian Lab.dataset) [Lab.qD1]
    = Done (<["qD1" := fit_record 0x1p-8 (1e-9 * 4096)
                         (1e-9 * (4096 * (0x1p-20 / 0x1p-12)))]> ∅))
    by (vm_compute; reflexivity).
  eexists.
  destruct (fit_results_values (Lab.fits gaussian Lab.dataset) [Lab.qD1] _ Lab.qD1 Hr)
    as (f & d & dd & H); [left|].
  exists f, d, dd. split; [exact Hr | exact H].
Defined.

(** X9: The dictionary comprehension of lines 233-240 gives [fit_results] one
    entry per name of a selected qubit and no other: its keys are exactly
    those names (a name selected twice gives one entry), and every entry is
    a record with the three keys. *)
Theorem fit_results_keys (fit : Fit) (qs : list Qubit.t)
    (r : gmap string (gmap string float)) :
  fit_results_of fit qs = Done r ->
  dom r = names_of qs /\
  (forall k, is_Some (r !! k) <-> exists q, q ∈ qs /\ Qubit.name q = k) /\
  (forall k record, r !! k = Some record -> dom record = record_keys).
Proof.
  intros H.
  apply fit_results_of_unfold in H as (frequency & dec & dres & _ & _ & _ & H).
  pose proof (collect_fit_results_dom _ _ _ _ _ _ H) as Hdom.
  rewrite dom_empty_L, union_empty_r_L in Hdom.
  assert (Hkeys : forall k, is_Some (r !! k) <-> exists q, q ∈ qs /\ Qubit.name q = k).
  { intros k. rewrite <- elem_of_dom, Hdom. unfold names_of.
    rewrite elem_of_list_to_set.
    change (map Qubit.name qs) with (Qubit.name <$> qs).
    rewrite list_elem_of_fmap. split; intros (q & H1 & H2); exists q; done. }
  split; [done|]. split; [done|].
  intros k record Hk.
  destruct (proj1 (Hkeys k) (mk_is_Some _ _ Hk)) as (q & Hq & <-).
  apply collect_fit_results_done in H as [Hin _].
  destruct (Hin q Hq) as (x & y & z & _ & _ & _ & Hr).
  rewrite Hr in Hk. injection Hk as <-. apply fit_record_keys.
Qed.

Lemma fit_results_keys_witness :
  exists r,
    fit_results_of (Lab.fits gaussian Lab.dataset) [Lab.qD1; Lab.qD1] = Done r /\
    dom r = names_of [Lab.qD1; Lab.qD1] /\
    (forall k, is_Some (r !! k) <->
       exists q, q ∈ [Lab.qD1; Lab.qD1] /\ Qubit.name q = k) /\
    (forall k record, r !! k = Some record -> dom record = record_keys).
Proof.
  assert (Hr : fit_results_of (Lab.fits gaussian Lab.dataset) [Lab.qD1; Lab.qD1]
    = Done (<["qD1" := fit_record 0x1p-8 (1e-9 * 4096)
                         (1e-9 * (4096 * (0x1p-20 / 0x1p-12)))]> ∅))
    by (vm_compute; reflexivity).
  eexists. split; [exact Hr|].
  exact (fit_results_keys (Lab.fits gaussian Lab.dataset) [Lab.qD1; Lab.qD1] _ Hr).
Defined.

(** X10: When lines 206-240 complete: exactly when the fit has the labels "f",
    "decay" and "decay_decay" and gives, for every selected qubit, a
    frequency above zero, a decay rate and a variance of the decay rate.
    Nothing is asked of the decay rate or of its variance: a zero or
    negative rate and a NaN pass. *)
Theorem fit_results_complete_iff (fit : Fit) (qs : list Qubit.t) :
  (exists r, fit_results_of fit qs = Done r) <->
  is_Some (fit !! "f") /\ is_Some (fit !! "decay") /\ is_Some (fit !! "decay_decay") /\
  forall q, q ∈ qs ->
    (exists f, fit_value fit "f" (Qubit.name q) = Some f /\ PrimFloat.ltb 0 f = true) /\
    is_Some (fit_value fit "decay" (Qubit.name q)) /\
    is_Some (fit_value fit "decay_decay" (Qubit.name q)).
Proof.
  split.
  - intros [r H].
    apply fit_results_of_unfold in H as (frequency & dec & dres & Hf & Hd & Hdd & H).
    rewrite Hf, Hd, Hdd. split; [done|]. split; [done|]. split; [done|].
    intros q Hq. apply collect_fit_results_done in H as [Hin _].
    destruct (Hin q Hq) as (x & y & z & Hx & Hy & Hz & _).
    apply where_positive_Some in Hx as [Hx Hpos].
    rewrite decay_lookup in Hy. rewrite decay_error_lookup in Hz.
    unfold fit_value. rewrite Hf, Hd, Hdd.
    destruct (dec !! Qubit.name q) as [d|]; [|discriminate].
    destruct (dres !! Qubit.name q) as [dd|]; [|discriminate].
    split; [by exists x|]. by split.
  - intros ([frequency Hf] & [dec Hd] & [dres Hdd] & Hall).
    unfold fit_results_of, sel. rewrite Hf, Hd, Hdd. simpl.
    apply collect_fit_results_total. intros q Hq.
    destruct (Hall q Hq) as ((f & Hfq & Hpos) & [d Hdq] & [dd Hddq]).
    unfold fit_value in Hfq, Hdq, Hddq. rewrite Hf in Hfq. rewrite Hd in Hdq.
    rewrite Hdd in Hddq.
    rewrite decay_lookup, decay_error_lookup, Hdq, Hddq.
    split; [|done]. exists f. by apply where_positive_Some.
Qed.

(** ** The node of a completed run on hardware *)



(** The entries of the dictionary of line 357. *)
Lemma outcomes_lookup (qs : list Qubit.t) k v :
  (list_to_map (map (fun q => (Qubit.name q, "successful")) (reverse qs))
     : gmap string string) !! k = Some v ->
  v = "successful" /\ exists q, q ∈ qs /\ Qubit.name q = k.
Proof.
  intros H. apply elem_of_list_to_map_2 in H.
  change (map ?f ?l) with (f <$> l) in H.
  apply list_elem_of_fmap in H as (q & [= -> ->] & Hq).
  split; [done|]. exists q. split; [|done]. by apply elem_of_reverse.
Qed.

Lemma outcomes_dom (qs : list Qubit.t) :
  dom (list_to_map (map (fun q => (Qubit.name q, "successful")) (reverse qs))
         : gmap string string) = names_of qs.
Proof.
  rewrite dom_list_to_map_L. unfold names_of. apply set_eq. intros k.
  rewrite !elem_of_list_to_set.
  change (map ?f ?l) with (f <$> l).
  rewrite <- list_fmap_compose, !list_elem_of_fmap.
  split; intros (q & -> & Hq); exists q; (split; [done|]).
  - by apply elem_of_reverse.
  - by apply elem_of_reverse.
Qed.



(** X12: Line 357: the outcomes of a saved node of a run without [simulate]
    name exactly the selected qubits, and every one of them is
    "successful": the script has no other outcome to give, whatever the
    fits found. *)
Theorem every_saved_outcome_is_successful (w : World) (p : Parameters.t)
    (fuel : nat) (g : Globals) (o : Outcome unit) (i : nat) (n : Node) :
  run w p fuel = (g, o) ->
  Parameters.simulate p = false ->
  trace g !! i = Some (Saved n) ->
  exists qs,
    select_qubits (state_file w) (Parameters.qubits p) = Done qs /\
    dom (outcomes n) = names_of qs /\
    (forall q, q ∈ qs -> outcomes n !! Qubit.name q = Some "successful") /\
    (forall k v, outcomes n !! k = Some v -> v = "successful").
Proof.
  intros H Hsim Hi. destruct (saved_last w p fuel g o i n H Hi) as (-> & Hl & ->).
  apply run_done in H as (_ & H); [|done].
  destruct H as (qs & det & j & c1 & c2 & r1 & r2 & Hq & _ & _ & _ & _ & _ & _ & _ & _ & Hn & _).
  exists qs. rewrite Hn. unfold final_node. simpl.
  split; [done|]. split; [apply outcomes_dom|]. split.
  - intros q Hq'.
    destruct (list_to_map (map (fun q0 => (Qubit.name q0, "successful")) (reverse qs))
                !! Qubit.name q) as [v|] eqn:Hv.
    + by apply outcomes_lookup in Hv as [-> _].
    + apply not_elem_of_dom in Hv. rewrite outcomes_dom in Hv.
      exfalso. apply Hv. unfold names_of. apply elem_of_list_to_set.
      change (map ?f ?l) with (f <$> l). apply list_elem_of_fmap. by exists q.
  - intros k v Hk. by apply outcomes_lookup in Hk as [-> _].
Qed.

Lemma every_saved_outcome_is_successful_witness :
  exists qs,
    select_qubits (state_file Lab.world) (Parameters.qubits Lab.params) = Done qs /\
    dom (outcomes (node (fst (run Lab.world Lab.params 5)))) = names_of qs /\
    (forall q, q ∈ qs ->
       outcomes (node (fst (run Lab.world Lab.params 5))) !! Qubit.name q
       = Some "successful") /\
    (forall k v, outcomes (node (fst (run Lab.world Lab.params 5))) !! k = Some v ->
       v = "successful").
Proof.
  assert (Hi : trace (fst (run Lab.world Lab.params 5)) !! 30%nat
               = Some (Saved (node (fst (run Lab.world Lab.params 5)))))
    by (vm_compute; reflexivity).
  exact (every_saved_outcome_is_successful Lab.world Lab.params 5
           (fst (run Lab.world Lab.params 5)) (snd (run Lab.world Lab.params 5))
           30 (node (fst (run Lab.world Lab.params 5)))
           (surjective_pairing _) eq_refl Hi).
Defined.

(** ** What an analysis block asks of the fit *)

(** X13: Lines 195-272 and 276-353: an analysis block that runs to its end has
    found in the array of its fit function the six labels "a", "f", "phi",
    "offset", "decay" and "decay_decay" of the coordinate "fit_vals", and
    it ran with [date_time] bound. *)
Theorem analysis_reads_six_labels (w : World) (m : DecayModel)
    (qs : list Qubit.t) (ds : Dataset) (g g' : Globals) (u : unit) :
  Data_analysis w m qs ds g = (g', Done u) ->
  Forall (fun label => is_Some (fit_oscillation_decay w m ds !! label)) fit_labels /\
  is_Some (date_time g) /\
  trace g' = trace g ++ analysis_events m.
Proof.
  intros H. apply analysis_done in H as (c & r & dt & Hc & Hr & Hdt & ->).
  split; [|split; [by rewrite Hdt | done]].
  unfold curve_of in Hc.
  apply and_then_done in Hc as (a & Ha & Hc).
  apply and_then_done in Hc as (f & Hf & Hc).
  apply and_then_done in Hc as (phi & Hphi & Hc).
  apply and_then_done in Hc as (offset & Hoff & Hc).
  apply and_then_done in Hc as (decay & Hdec & _).
  apply fit_results_of_unfold in Hr as (_ & _ & dres & _ & _ & Hdd & _).
  apply sel_done in Ha, Hf, Hphi, Hoff, Hdec.
  unfold fit_labels.
  repeat (constructor; [eexists; eassumption|]). constructor.
Qed.

Lemma analysis_reads_six_labels_witness :
  Forall (fun label =>
            is_Some (fit_oscillation_decay Lab.world gaussian Lab.dataset !! label))
    fit_labels /\
  is_Some (date_time before_analysis) /\
  trace (fst (Data_analysis Lab.world gaussian [Lab.qD1] Lab.dataset before_analysis))
  = trace before_analysis ++ analysis_events gaussian.
Proof.
  apply (analysis_reads_six_labels Lab.world gaussian [Lab.qD1] Lab.dataset
           before_analysis
           (fst (Data_analysis Lab.world gaussian [Lab.qD1] Lab.dataset before_analysis))
           tt).
  rewrite (surjective_pairing
             (Data_analysis Lab.world gaussian [Lab.qD1] Lab.dataset before_analysis))
    at 1.
  f_equal.
Defined.

(** ** The streams of the QUA program, as a whole *)

Lemma readouts_of_length dev prog i ns :
  length (readouts_of dev prog i ns)
  = (length ns * length (prog_idle_times prog))%nat.
Proof.
  unfold readouts_of. induction ns as [|n ns IH]; simpl; [done|].
  by rewrite length_app, length_map, length_seq, IH.
Qed.

Lemma xor_stream_length d rs : length (xor_stream d rs) = length rs.
Proof. revert d. induction rs as [|r rs IH]; intros d; simpl; [done|]. by rewrite IH. Qed.

Lemma running_xor_xor_stream d rs : running_xor d (xor_stream d rs) = rs.
Proof.
  revert d. induction rs as [|r rs IH]; intros d; simpl; [done|].
  rewrite <- Z.lxor_assoc, Z.lxor_nilpotent, Z.lxor_0_l. by rewrite IH.
Qed.





(** X15: Lines 113-132 and 141: the stream of a qubit holds one value per
    averaging iteration and idle time, n_avg times the number of idle
    times in all, so that [buffer(len(idle_times))] cuts it into exactly
    n_avg full buffers; and it is a differential coding of the readouts:
    the running exclusive or of the stream, started from what the
    declaration left in [init_state], gives the readouts back. *)
Theorem stream_decodes_to_the_readouts (dev : Device) (prog : Program) (i : nat) :
  (i < length (prog_qubits prog))%nat ->
  length (state_st (ramsey dev prog) !!! i)
  = (Z.to_nat (prog_n_avg prog) * length (prog_idle_times prog))%nat /\
  running_xor (declared dev "init_state" i) (state_st (ramsey dev prog) !!! i)
  = readouts dev prog i.
Proof.
  intros Hi. destruct (ramsey_stream dev prog i Hi) as [_ Hst].
  rewrite Hst, xor_stream_length, running_xor_xor_stream. split; [|done].
  unfold readouts.
  change (flat_map _ _)
    with (readouts_of dev prog i (seq 0 (Z.to_nat (prog_n_avg prog)))).
  by rewrite readouts_of_length, length_seq.
Qed.

Lemma stream_decodes_to_the_readouts_witness :
  length (state_st (ramsey pattern_device small_program) !!! 1%nat)
  = (Z.to_nat (prog_n_avg small_program) * length (prog_idle_times small_program))%nat /\
  running_xor (declared pattern_device "init_state" 1)
    (state_st (ramsey pattern_device small_program) !!! 1%nat)
  = readouts pattern_device small_program 1.
Proof.
  apply (stream_decodes_to_the_readouts pattern_device small_program 1).
  simpl. lia.
Defined.

Lemma lxor_bits a b : is_bit a -> is_bit b -> is_bit (Z.lxor a b).
Proof. intros [-> | ->] [-> | ->]; vm_compute; tauto. Qed.

Lemma previous_readout_bit d rs j :
  is_bit d -> Forall is_bit rs -> (j <= length rs)%nat ->
  is_bit (previous_readout d rs j).
Proof.
  intros Hd Hrs Hj. destruct j as [|j]; [done|]. simpl.
  destruct (lookup_lt_is_Some_2 rs j ltac:(lia)) as [r Hr].
  rewrite (list_lookup_total_correct _ _ _ Hr).
  exact (Forall_lookup_1 _ _ _ _ Hrs Hr).
Qed.

(** X16: Line 130: a value of the stream is zero exactly when the readout of
    its shot equals the readout before it, so the stream marks the changes
    of the measured state, not the state; and when the readouts and the
    declared content of [init_state] are bits, every value of the stream
    is a bit. *)
Theorem stream_marks_the_changes (dev : Device) (prog : Program) (i j : nat) (v : Z) :
  (i < length (prog_qubits prog))%nat ->
  (state_st (ramsey dev prog) !!! i) !! j = Some v ->
  (v = 0 <->
   readouts dev prog i !!! j
   = previous_readout (declared dev "init_state" i) (readouts dev prog i) j) /\
  (is_bit (declared dev "init_state" i) ->
   Forall is_bit (readouts dev prog i) ->
   is_bit v).
Proof.
  intros Hi Hj. destruct (ramsey_stream dev prog i Hi) as [_ Hst].
  rewrite Hst in Hj.
  assert (Hlt : (j < length (readouts dev prog i))%nat).
  { apply lookup_lt_Some in Hj. by rewrite xor_stream_length in Hj. }
  rewrite xor_stream_lookup in Hj by done. injection Hj as <-.
  split.
  - split.
    + intros H0. by apply Z.lxor_eq in H0.
    + intros ->. apply Z.lxor_nilpotent.
  - intros Hd Hrs. apply lxor_bits.
    + apply previous_readout_bit; [done..|lia].
    + destruct (lookup_lt_is_Some_2 _ j Hlt) as [r Hr].
      rewrite (list_lookup_total_correct _ _ _ Hr).
      exact (Forall_lookup_1 _ _ _ _ Hrs Hr).
Qed.

Lemma stream_marks_the_changes_witness :
  (1 = 0 <->
   readouts pattern_device small_program 1 !!! 4%nat
   = previous_readout (declared pattern_device "init_state" 1)
       (readouts pattern_device small_program 1) 4) /\
  (is_bit (declared pattern_device "init_state" 1) ->
   Forall is_bit (readouts pattern_device small_program 1) ->
   is_bit 1).
Proof.
  apply (stream_marks_the_changes pattern_device small_program 1 4 1).
  - simpl. lia.
  - vm_compute. reflexivity.
Defined.

(** ** The program that was executed and the dataset *)




(** ** Qubits named by a string *)

Lemma characters_length s : length (characters s) = String.length s.
Proof. induction s as [|c s IH]; simpl; [done|]. by rewrite IH. Qed.

Lemma characters_single s :
  Forall (fun name => String.length name = 1%nat) (characters s).
Proof. induction s as [|c s IH]; simpl; constructor; done. Qed.

(** X18: Lines 72-75: a [qubits] parameter that is a string and not empty is
    iterated character by character, so it is the one-character names that
    are looked up in the machine, not the string.  When the machine has no
    qubit named by the first character the script ends in the first cell,
    before the program is built, with the [KeyError] of that character
    (unless a library call raised before). *)
Theorem qubits_given_as_a_string (w : World) (p : Parameters.t) (fuel : nat)
    (c : Ascii.ascii) (rest : string) :
  Parameters.qubits p = QubitsStr (String c rest) ->
  (forall qs,
     select_qubits (state_file w) (Parameters.qubits p) = Done qs <->
     Forall2 (fun name q => Quam.qubits (state_file w) !! name = Some q)
       (characters (String c rest)) qs) /\
  length (characters (String c rest)) = String.length (String c rest) /\
  Forall (fun name => String.length name = 1%nat) (characters (String c rest)) /\
  (Quam.qubits (state_file w) !! String c "" = None ->
   forall g o, run w p fuel = (g, o) ->
     within initialise_site (trace g) /\
     touches is_program (trace g) = false /\
     exists e, o = Raised e /\
       ((forall s, initialise_site s = true -> raises w s = None) ->
        e = KeyError (String c ""))).
Proof.
  intros Hp. split; [|split; [|split]].
  - intros qs. rewrite Hp. apply lookup_qubits_done.
  - apply characters_length.
  - apply characters_single.
  - intros Hmiss g o H.
    assert (Hsel : select_qubits (state_file w) (Parameters.qubits p)
                   = Raised (KeyError (String c ""))).
    { rewrite Hp. simpl. unfold lookup_qubit. by rewrite Hmiss. }
    destruct (initialise_raises w p (start p) _ Hsel) as (g' & e & Hi & He).
    unfold run, script, bind in H. rewrite Hi in H. injection H as <- <-.
    assert (Hem : emits initialise_site (Initialize_QuAM_and_QOP w p)).
    { unfold Initialize_QuAM_and_QOP. emits_go. }
    apply Hem in Hi as (tr & Ht & Hw & _). simpl in Ht. subst tr.
    split; [done|]. split.
    { apply (touches_within _ _ _ Hw). by intros []. }
    exists e. done.
Qed.

Lemma qubits_given_as_a_string_witness :
  length (characters "qD1") = 3%nat /\
  snd (run Lab.world string_of_a_qubit 5) = Raised (KeyError "q").
Proof.
  destruct (qubits_given_as_a_string Lab.world string_of_a_qubit 5
              _ _ (eq_refl (QubitsStr "qD1"))) as (_ & H2 & _ & H4).
  split; [exact H2|].
  destruct (H4 eq_refl (fst (run Lab.world string_of_a_qubit 5))
              (snd (run Lab.world string_of_a_qubit 5)) (surjective_pairing _))
    as (_ & _ & e & He & Hk).
  rewrite He. f_equal. apply Hk. intros s _. reflexivity.
Defined.

(** ** A detuning that is no finite number *)

Lemma int_of_float_raises x e :
  int_of_float x = Raised e ->
  (Prim2SF x = S754_nan /\
   e = ValueError "cannot convert float NaN to integer") \/
  (exists s, Prim2SF x = S754_infinity s /\
   e = OverflowError "cannot convert float infinity to integer").
Proof.
  unfold int_of_float. destruct (Prim2SF x) as [s|s| |s m ex]; intros H;
    try discriminate; injection H as <-; [right|left]; eauto.
Qed.

Lemma initialise_done w p qs :
  (forall s, initialise_site s = true -> raises w s = None) ->
  select_qubits (state_file w) (Parameters.qubits p) = Done qs ->
  exists g, Initialize_QuAM_and_QOP w p (start p) = (g, Done (state_file w, qs)).
Proof.
  intros Hok Hsel.
  unfold Initialize_QuAM_and_QOP, bind, call, lift, modify, ret. rewrite Hsel.
  rewrite (Hok Site.QualibrationNode eq_refl), (Hok Site.get_node_id eq_refl),
    (Hok Site.Quam_load eq_refl), (Hok Site.generate_config eq_refl).
  destruct (Parameters.load_data_id p); simpl.
  - eexists. reflexivity.
  - rewrite (Hok Site.connect eq_refl). eexists. reflexivity.
Qed.

(** X19: Line 93: [int()] takes the detuning before the program is built (line
    96).  A detuning that is NaN or infinite makes it raise, a
    [ValueError] or an [OverflowError]; the run then never completes, has
    called nothing but the sites of the first cell, has built no program,
    and ends with that exception when the first cell went well. *)
Theorem detuning_must_be_finite (w : World) (p : Parameters.t) (fuel : nat)
    (g : Globals) (o : Outcome unit) (e : Exception) :
  run w p fuel = (g, o) ->
  detuning p = Raised e ->
  (e = ValueError "cannot convert float NaN to integer" \/
   e = OverflowError "cannot convert float infinity to integer") /\
  o <> Done tt /\
  within initialise_site (trace g) /\
  touches is_program (trace g) = false /\
  ((forall s, initialise_site s = true -> raises w s = None) ->
   forall qs, select_qubits (state_file w) (Parameters.qubits p) = Done qs ->
   o = Raised e).
Proof.
  intros H Hd. split.
  { apply int_of_float_raises in Hd as [[_ ->] | (s & _ & ->)]; [by left | by right]. }
  assert (Hem : emits initialise_site (Initialize_QuAM_and_QOP w p)).
  { unfold Initialize_QuAM_and_QOP. emits_go. }
  unfold run, script, bind in H.
  destruct (Initialize_QuAM_and_QOP w p (start p)) as [g1 o1] eqn:Hi.
  pose proof (Hem _ _ _ Hi) as (tr & Ht & Hw & _). simpl in Ht. subst tr.
  assert (Hg : trace g = trace g1 /\ o <> Done tt).
  { destruct o1 as [mq|e1|]; try (by injection H as <- <-).
    unfold QUA_program, bind, lift in H. rewrite Hd in H. by injection H as <- <-. }
  destruct Hg as [Hg Ho]. rewrite Hg.
  split; [done|]. split; [done|]. split.
  { apply (touches_within _ _ _ Hw). by intros []. }
  intros Hok qs Hsel.
  destruct (initialise_done w p qs Hok Hsel) as (g2 & Hi2).
  rewrite Hi2 in Hi. injection Hi as <- <-.
  unfold QUA_program, bind, lift in H. rewrite Hd in H. by injection H as <- <-.
Qed.

Lemma detuning_must_be_finite_witness :
  snd (run Lab.world undefined_detuning 5)
  = Raised (ValueError "cannot convert float NaN to integer") /\
  touches is_program (trace (fst (run Lab.world undefined_detuning 5))) = false.
Proof.
  assert (Hd : detuning undefined_detuning
               = Raised (ValueError "cannot convert float NaN to integer"))
    by (vm_compute; reflexivity).
  destruct (detuning_must_be_finite Lab.world undefined_detuning 5
              (fst (run Lab.world undefined_detuning 5))
              (snd (run Lab.world undefined_detuning 5)) _
              (surjective_pairing _) Hd) as (_ & _ & _ & H4 & H5).
  split; [|exact H4].
  apply (H5 (fun _ _ => eq_refl) [Lab.qD1]). vm_compute. reflexivity.
Defined.

(** ** How a run on loaded data ends *)

(** X20: Lines 187-195 and 269: without [simulate], with [load_data_id] set and
    every library call returning, the run is over after [load_from_id] with
    a [KeyError] when the stored node has no "ds", and with an
    [AttributeError] when its "ds" is no dataset; and when the stored
    dataset is there and the exponential analysis finds its values, the
    node holds the results of the exponential fit but the run ends on the
    title of the first figure with a [NameError], before [plt.show]. *)
Theorem loaded_data_ends_in_an_exception (w : World) (p : Parameters.t)
    (fuel : nat) (id : Z) (qs : list Qubit.t) (det : Z) :
  (forall s, raises w s = None) ->
  Parameters.simulate p = false ->
  Parameters.load_data_id p = Some id ->
  select_qubits (state_file w) (Parameters.qubits p) = Done qs ->
  detuning p = Done det ->
  (results (stored_node w id) !! "ds" = None ->
   exists g, run w p fuel = (g, Raised (KeyError "ds")) /\
     trace g = offline_prelude ++ [Returned Site.load_from_id]) /\
  (forall v, results (stored_node w id) !! "ds" = Some v ->
   (forall ds, v <> VDataset ds) ->
   exists g, run w p fuel = (g, Raised (AttributeError "state")) /\
     trace g = offline_prelude ++ [Returned Site.load_from_id]) /\
  (forall ds c r,
   results (stored_node w id) !! "ds" = Some (VDataset ds) ->
   curve_of exponential ds (fit_oscillation_decay w exponential ds) = Done c ->
   fit_results_of (fit_oscillation_decay w exponential ds) qs = Done r ->
   exists g, run w p fuel = (g, Raised (NameError "date_time")) /\
     results (node g) !! "ds" = Some (VDataset ds) /\
     results (node g) !! "fit_results" = Some (VFitResults r) /\
     results (node g) !! "figure" = None /\
     trace g = offline_prelude ++
       [Returned Site.load_from_id;
        Returned (Site.fit_oscillation_decay exponential);
        Returned (Site.oscillation_decay exponential);
        Returned (Site.print exponential); Returned (Site.plot_grid exponential)]).
Proof.
  intros Hok Hsim Hid Hsel Hdet.
  unfold run, script, Initialize_QuAM_and_QOP, QUA_program, Simulate_or_execute,
    fetch_and_analyse, Data_fetching_and_dataset_creation.
  cbv zeta. rewrite Hsim, Hid, Hsel, Hdet.
  unfold bind, call, lift, modify, read, get, ret. rewrite !Hok. simpl.
  split; [|split].
  - intros ->. eexists. split; reflexivity.
  - intros v -> Hv. destruct v as [ds| | |]; [by destruct (Hv ds)|..];
      simpl; eexists; split; reflexivity.
  - intros ds c r -> Hc Hr. simpl.
    unfold Data_analysis, bind, call, lift, modify, read, get, ret.
    rewrite !Hok, Hc, Hr. simpl.
    eexists. split; [reflexivity|]. simpl.
    split; [by simplify_map_eq|]. split; [by simplify_map_eq|].
    split; [by simplify_map_eq|]. reflexivity.
Qed.

Lemma loaded_data_ends_in_an_exception_witness :
  (exists g, run Lab.world (Lab.with_load_data_id 7 Lab.params) 5
             = (g, Raised (KeyError "ds")) /\
     trace g = offline_prelude ++ [Returned Site.load_from_id]) /\
  (exists g, run Lab.archive_world (Lab.with_load_data_id 7 Lab.params) 5
             = (g, Raised (NameError "date_time"))).
Proof.
  split.
  - apply (proj1 (loaded_data_ends_in_an_exception Lab.world
             (Lab.with_load_data_id 7 Lab.params) 5 7 [Lab.qD1] 5000000
             (fun _ => eq_refl) eq_refl eq_refl eq_refl eq_refl)).
    reflexivity.
  - assert (Hc : curve_of exponential Lab.dataset (Lab.fits exponential Lab.dataset)
      = Done {| curve_model := exponential; curve_time := [16; 20; 24; 28];
                curve_a := <["qD1" := 0.5%float]> ∅;
                curve_f := <["qD1" := 0x1p-9%float]> ∅;
                curve_phi := <["qD1" := 0%float]> ∅;
                curve_offset := <["qD1" := 0.5%float]> ∅;
                curve_decay := <["qD1" := 0x1p-13%float]> ∅ |})
      by (vm_compute; reflexivity).
    assert (Hr : fit_results_of (Lab.fits exponential Lab.dataset) [Lab.qD1]
      = Done (<["qD1" := fit_record 0x1p-9 (1e-9 * 8192)
                           (1e-9 * (8192 * (0x1p-20 / 0x1p-13)))]> ∅))
      by (vm_compute; reflexivity).
    destruct (proj2 (proj2 (loaded_data_ends_in_an_exception Lab.archive_world
             (Lab.with_load_data_id 7 Lab.params) 5 7 [Lab.qD1] 5000000
             (fun _ => eq_refl) eq_refl eq_refl eq_refl eq_refl))
             Lab.dataset _ _ eq_refl Hc Hr) as (g & Hg & _).
    by exists g.
Defined.

(** ** The session is always left *)

Lemma session_closed_none tr : within not_qm_session tr -> session_closed tr.
Proof.
  intros Hw i Hi. apply (Forall_lookup_1 _ _ _ _ Hw) in Hi. discriminate.
Qed.

Lemma session_closed_app_l tr1 tr2 :
  within not_qm_session tr1 -> session_closed tr2 -> session_closed (tr1 ++ tr2).
Proof.
  intros Hw Hc i Hi. destruct (decide (i < length tr1)%nat) as [Hlt|Hge].
  - rewrite lookup_app_l in Hi by done.
    apply (Forall_lookup_1 _ _ _ _ Hw) in Hi. discriminate.
  - rewrite lookup_app_r in Hi by lia.
    destruct (Hc _ Hi) as (k & ev & Hk & Hev & Hs).
    exists (length tr1 + k)%nat, ev. split; [lia|]. split; [|done].
    rewrite lookup_app_r by lia. rewrite <- Hev. f_equal. lia.
Qed.

Lemma session_closed_app_r tr1 tr2 :
  session_closed tr1 -> within not_qm_session tr2 -> session_closed (tr1 ++ tr2).
Proof.
  intros Hc Hw i Hi. destruct (decide (i < length tr1)%nat) as [Hlt|Hge].
  - rewrite lookup_app_l in Hi by done.
    destruct (Hc _ Hi) as (k & ev & Hk & Hev & Hs).
    exists k, ev. split; [done|]. split; [|done].
    rewrite lookup_app_l; [done|]. by apply lookup_lt_Some in Hev.
  - rewrite lookup_app_r in Hi by lia.
    apply (Forall_lookup_1 _ _ _ _ Hw) in Hi. discriminate.
Qed.

Section Closing.
Variable w : World.

Lemma closes_of_emits {A} (m : Script A) : emits not_qm_session m -> closes m.
Proof.
  intros Hm g g' o H _. apply Hm in H as (tr & Ht & Hw & _).
  exists tr. split; [done|]. by apply session_closed_none.
Qed.

Lemma closes_bind_l {A B} (m : Script A) (f : A -> Script B) :
  emits not_qm_session m -> (forall a, closes (f a)) -> closes (bind m f).
Proof.
  intros Hm Hf g g' o. unfold bind.
  destruct (m g) as [g1 o1] eqn:H1.
  apply Hm in H1 as (tr1 & Ht1 & Hw1 & _).
  destruct o1 as [a|e|].
  - intros H2 Ho. destruct (Hf _ _ _ _ H2 Ho) as (tr2 & Ht2 & Hc2).
    exists (tr1 ++ tr2). split; [by rewrite Ht2, Ht1, app_assoc|].
    by apply session_closed_app_l.
  - intros [= <- <-] _. exists tr1. split; [done|]. by apply session_closed_none.
  - intros [= <- <-] Ho. done.
Qed.

Lemma closes_bind_r {A B} (m : Script A) (f : A -> Script B) :
  closes m -> (forall a, emits not_qm_session (f a)) -> closes (bind m f).
Proof.
  intros Hm Hf g g' o. unfold bind.
  destruct (m g) as [g1 o1] eqn:H1.
  destruct o1 as [a|e|].
  - destruct (Hm _ _ _ H1 ltac:(discriminate)) as (tr1 & Ht1 & Hc1).
    intros H2 _. apply Hf in H2 as (tr2 & Ht2 & Hw2 & _).
    exists (tr1 ++ tr2). split; [by rewrite Ht2, Ht1, app_assoc|].
    by apply session_closed_app_r.
  - destruct (Hm _ _ _ H1 ltac:(discriminate)) as (tr1 & Ht1 & Hc1).
    intros [= <- <-] _. by exists tr1.
  - intros [= <- <-] Ho. done.
Qed.

(** Line 166: the block is left when its body ends, normally or not. *)
Lemma closes_with_qm_session {A} (body : Script A) :
  emits not_qm_session body -> closes (with_qm_session w body).
Proof.
  intros Hb g g' o. unfold with_qm_session, bind, call.
  destruct (raises w Site.qm_session) as [e|].
  { intros [= <- <-] _. exists [Threw Site.qm_session e]. split; [done|].
    intros [|i] Hi; simpl in Hi; [discriminate | by rewrite lookup_nil in Hi]. }
  destruct (body _) as [g1 o1] eqn:H1.
  apply Hb in H1 as (tr1 & Ht1 & Hw1 & _). simpl in Ht1.
  assert (Hclosed : forall ev, site_of ev = Site.qm_session_exit ->
    session_closed (Returned Site.qm_session :: tr1 ++ [ev])).
  { intros ev Hs i Hi. exists (S (length tr1)), ev. split.
    - destruct i as [|i]; [lia|]. simpl in Hi.
      destruct (decide (i < length tr1)%nat) as [Hlt|Hge].
      + rewrite lookup_app_l in Hi by done.
        apply (Forall_lookup_1 _ _ _ _ Hw1) in Hi. discriminate.
      + rewrite lookup_app_r in Hi by lia.
        destruct (i - length tr1)%nat; simpl in Hi.
        * injection Hi as ->. discriminate.
        * by rewrite lookup_nil in Hi.
    - split; [|done]. simpl. rewrite lookup_app_r by lia.
      by rewrite Nat.sub_diag. }
  destruct o1 as [a|e|].
  - destruct (raises w Site.qm_session_exit) as [e'|]; intros [= <- <-] _;
      eexists; (split; [simpl; rewrite Ht1, <- !app_assoc; reflexivity|]);
      by apply Hclosed.
  - destruct (raises w Site.qm_session_exit) as [e'|]; intros [= <- <-] _;
      eexists; (split; [simpl; rewrite Ht1, <- !app_assoc; reflexivity|]);
      by apply Hclosed.
  - intros [= <- <-] Ho. done.
Qed.

Lemma closes_script p fuel : closes (script w p fuel).
Proof.
  unfold script.
  apply closes_bind_l; [unfold Initialize_QuAM_and_QOP; emits_go|]. intros mq.
  apply closes_bind_l; [unfold QUA_program; emits_go|]. intros prog.
  apply closes_bind_r.
  - unfold Simulate_or_execute. destruct (Parameters.simulate p).
    { apply closes_of_emits. unfold simulate_branch. emits_go. }
    destruct (Parameters.load_data_id p); [apply closes_of_emits, emits_ret|].
    unfold execute_branch.
    apply closes_bind_l; [emits_go|]. intros _.
    apply closes_bind_l; [emits_go|]. intros _.
    apply closes_bind_l; [emits_go|]. intros _.
    apply closes_with_qm_session. emits_go.
  - intros _. unfold fetch_and_analyse, Data_fetching_and_dataset_creation,
      Data_analysis, Save_results. emits_go.
Qed.
End Closing.

(** X21: Line 166: the session is opened in a [with] block, so every run that
    opened a session and is over, with a result or with an exception
    raised anywhere (by the execution, by the polling, by the analysis),
    left the session after it had opened it. *)
Theorem session_is_always_left (w : World) (p : Parameters.t) (fuel : nat)
    (g : Globals) (o : Outcome unit) (i : nat) :
  run w p fuel = (g, o) ->
  o <> Unfinished ->
  trace g !! i = Some (Returned Site.qm_session) ->
  exists k ev, (i < k)%nat /\ trace g !! k = Some ev /\
    site_of ev = Site.qm_session_exit.
Proof.
  intros H Ho Hi. destruct (closes_script w p fuel _ _ _ H Ho) as (tr & Ht & Hc).
  simpl in Ht. subst tr. by apply Hc.
Qed.

Lemma session_is_always_left_witness :
  snd (run failing_job_world Lab.params 5) = Raised (LibraryError "job failed") /\
  exists k ev, (7 < k)%nat /\
    trace (fst (run failing_job_world Lab.params 5)) !! k = Some ev /\
    site_of ev = Site.qm_session_exit.
Proof.
  split; [vm_compute; reflexivity|].
  apply (session_is_always_left failing_job_world Lab.params 5
           (fst (run failing_job_world Lab.params 5))
           (snd (run failing_job_world Lab.params 5)) 7).
  - apply surjective_pairing.
  - vm_compute. discriminate.
  - vm_compute. reflexivity.
Defined.
